(** * CineFinder scraper: the SensCritique spider

    A shallow embedding of
    [cinefinder_scraper/spiders/senscritique_spider.py]: the helper
    functions ([iso8601_duration_to_minutes], [clean_title_and_year],
    [extract_year_from_date], [as_list], [iter_jsonld_objects]) and the
    two callbacks of [SensCritiqueSpider] ([parse_list_page],
    [parse_film]), with the properties of the crawler's design
    specification stated over them.

    Python values are modelled as they are at run time: a [str] is a
    sequence of Unicode code points, an [int] is unbounded, a [float] is
    a binary64, a [dict]/[list] from [json.loads] is a tree, and an
    operation that can raise returns in the [res] monad. The limits of
    an interpreter (recursion depth, the number of digits [int] accepts)
    are left out. A callback is a generator that the engine runs to its
    end: a call is one step of a run. *)

From stdpp Require Import base gmap sets list.
From Stdlib Require Import ZArith NArith Floats Lia.
From Stdlib Require Ascii String.
Import String.StringSyntax.
Delimit Scope string_scope with string.

(** ** Python strings *)

Module PyStr.

Local Open Scope N_scope.

(** A character is a code point, a [str] a list of them. *)
Abbreviation char := N (only parsing).
Abbreviation pystr := (list N) (only parsing).

(** String literals of this file are written as Rocq strings (UTF-8
    bytes) and decoded to code points. *)
Fixpoint utf8_decode (bs : list N) (need : nat) (acc : N) : pystr :=
  match bs with
  | [] => []
  | b :: bs' =>
      match need with
      | O =>
          if b <? 0x80 then b :: utf8_decode bs' 0 0
          else if b <? 0xE0 then utf8_decode bs' 1 (b - 0xC0)
          else if b <? 0xF0 then utf8_decode bs' 2 (b - 0xE0)
          else utf8_decode bs' 3 (b - 0xF0)
      | S O => (acc * 64 + (b - 0x80)) :: utf8_decode bs' 0 0
      | S n => utf8_decode bs' n (acc * 64 + (b - 0x80))
      end
  end.

Definition py (s : String.string) : pystr :=
  utf8_decode (map Ascii.N_of_ascii (String.list_ascii_of_string s)) 0 0.
Arguments py s%_string.

(** [Py_UNICODE_ISSPACE]: what [str.split], [str.strip], [int] and the
    regex class [\s] treat as whitespace. *)
Definition isspace (c : char) : bool :=
  ((0x09 <=? c) && (c <=? 0x0D)) || ((0x1C <=? c) && (c <=? 0x20))
  || (c =? 0x85) || (c =? 0xA0) || (c =? 0x1680)
  || ((0x2000 <=? c) && (c <=? 0x200A))
  || (c =? 0x2028) || (c =? 0x2029) || (c =? 0x202F) || (c =? 0x205F)
  || (c =? 0x3000).

(** The decimal digits (general category Nd) come in runs of ten; the
    table lists the code point of each zero (Unicode 15). *)
Definition decimal_zeros : list N :=
  [ 0x30; 0x660; 0x6F0; 0x7C0; 0x966; 0x9E6; 0xA66; 0xAE6; 0xB66; 0xBE6;
    0xC66; 0xCE6; 0xD66; 0xDE6; 0xE50; 0xED0; 0xF20; 0x1040; 0x1090;
    0x17E0; 0x1810; 0x1946; 0x19D0; 0x1A80; 0x1A90; 0x1B50; 0x1BB0;
    0x1C40; 0x1C50; 0xA620; 0xA8D0; 0xA900; 0xA9D0; 0xA9F0; 0xAA50;
    0xABF0; 0xFF10; 0x104A0; 0x10D30; 0x11066; 0x110F0; 0x11136;
    0x111D0; 0x112F0; 0x11450; 0x114D0; 0x11650; 0x116C0; 0x11730;
    0x118E0; 0x11950; 0x11C50; 0x11D50; 0x11DA0; 0x11F50; 0x16A60;
    0x16AC0; 0x16B50; 0x1D7CE; 0x1D7D8; 0x1D7E2; 0x1D7EC; 0x1D7F6;
    0x1E140; 0x1E2F0; 0x1E4F0; 0x1E950; 0x1FBF0 ].

(** [Py_UNICODE_TODECIMAL]: the value of a decimal digit. *)
Fixpoint decimal_in (zs : list N) (c : char) : option N :=
  match zs with
  | [] => None
  | z :: zs' =>
      if (z <=? c) && (c <? z + 10) then Some (c - z) else decimal_in zs' c
  end.

Definition to_decimal (c : char) : option N := decimal_in decimal_zeros c.

(** [Py_UNICODE_ISDECIMAL], the regex class [\d]. *)
Definition isdecimal (c : char) : bool :=
  match to_decimal c with Some _ => true | None => false end.

(** [s.lstrip()], [s.rstrip()], [s.strip()]. *)
Fixpoint lstrip (s : pystr) : pystr :=
  match s with
  | [] => []
  | c :: s' => if isspace c then lstrip s' else s
  end.

Definition rstrip (s : pystr) : pystr := rev (lstrip (rev s)).

Definition strip (s : pystr) : pystr := rstrip (lstrip s).

(** [s.split()]: the maximal runs of non-whitespace characters; [cur] is
    the run being read. *)
Fixpoint split_from (s : pystr) (cur : pystr) : list pystr :=
  match s with
  | [] => match cur with [] => [] | _ => [cur] end
  | c :: s' =>
      if isspace c
      then match cur with [] => split_from s' [] | _ => cur :: split_from s' [] end
      else split_from s' (cur ++ [c])
  end.

Definition split (s : pystr) : list pystr := split_from s [].

(** [sep.join(parts)]. *)
Fixpoint join (sep : pystr) (parts : list pystr) : pystr :=
  match parts with
  | [] => []
  | [p] => p
  | p :: ps => p ++ sep ++ join sep ps
  end.

(** [s.startswith(p)]. *)
Fixpoint startswith (s p : pystr) : bool :=
  match p, s with
  | [], _ => true
  | _ :: _, [] => false
  | a :: p', c :: s' => (a =? c) && startswith s' p'
  end.

(** [p in s] for strings. *)
Fixpoint contains (s p : pystr) : bool :=
  startswith s p || match s with [] => false | _ :: s' => contains s' p end.

(** [_sre.unicode_tolower], on the characters whose lower case is a
    letter of a pattern of this file (the ASCII letters and the Latin-1
    letters); elsewhere the identity, which never yields such a letter. *)
Definition sre_lower (c : char) : char :=
  if (0x41 <=? c) && (c <=? 0x5A) then c + 32
  else if (0xC0 <=? c) && (c <=? 0xDE) && negb (c =? 0xD7) then c + 32
  else if c =? 0x130 then 0x69
  else if c =? 0x212A then 0x6B
  else c.

(** [sre_compile._ignorecase_fixes], for the same letters: the other
    lower-case characters a lower-case letter also stands for. *)
Definition ignorecase_fixes (lo : char) : list char :=
  if lo =? 0x69 then [0x131]
  else if lo =? 0x73 then [0x17F]
  else if lo =? 0xB5 then [0x3BC]
  else [].

End PyStr.
Export PyStr.

(** ** The regular expressions of the spider

    The fragment of Python's [re] the source uses: anchors, character
    classes, greedy repetition of one class, optional and capturing
    groups, alternation; matching is by backtracking, leftmost and
    greedy first, as [sre] does it. *)

Module Re.

Local Open Scope N_scope.

Inductive cclass :=
| Digit                (* \d *)
| Space                (* \s *)
| Lit (c : char).      (* the character itself *)

Inductive regex :=
| Bol                            (* ^ *)
| Eol                            (* $ *)
| One (p : cclass)
| Star (p : cclass)              (* p*, greedy *)
| Plus (p : cclass)              (* p+, greedy *)
| Times (n : nat) (p : cclass)   (* p{n} *)
| Opt (r : regex)                (* (?:r)?, greedy *)
| Group (i : nat) (r : regex)    (* the i-th capturing group *)
| Seq (r1 r2 : regex)
| Alt (r1 r2 : regex).

Infix "&>" := Seq (at level 60, right associativity).

(** A literal word of a pattern. *)
Fixpoint word (w : pystr) (r : regex) : regex :=
  match w with
  | [] => r
  | c :: w' => One (Lit c) &> word w' r
  end.

(** Does [c] match the class? With [re.IGNORECASE] a literal matches the
    characters whose lower case is the literal's, or one of its fixes;
    [\d] and [\s] do not depend on the flag. *)
Definition class_matches (ignorecase : bool) (p : cclass) (c : char) : bool :=
  match p with
  | Digit => isdecimal c
  | Space => isspace c
  | Lit a =>
      if ignorecase
      then let lo := sre_lower a in
           let ch := sre_lower c in
           (ch =? lo) || existsb (N.eqb ch) (ignorecase_fixes lo)
      else c =? a
  end.

(** The state of a match: whether no character has been consumed since
    the start of the string, what is left of the string, and the text of
    the groups that took part in the match. *)
Record mstate := MState {
  at_start : bool;
  rest : pystr;
  groups : list (nat * pystr)
}.

Definition consume (st : mstate) (s' : pystr) : mstate :=
  MState false s' (groups st).

(** [$] without [re.MULTILINE]: at the end of the string, or just before
    a newline that ends it. *)
Definition at_end (s : pystr) : bool :=
  match s with
  | [] => true
  | [c] => c =? 0x0A
  | _ => false
  end.

Section Exec.
Variable ignorecase : bool.

(** Greedy [p*]: take as many characters as match, give them back one at
    a time while the continuation fails. *)
Fixpoint star_k (p : cclass) (start : bool) (s : pystr) (gs : list (nat * pystr))
    (k : mstate -> option mstate) : option mstate :=
  match s with
  | c :: s' =>
      if class_matches ignorecase p c
      then match star_k p false s' gs k with
           | Some r => Some r
           | None => k (MState start s gs)
           end
      else k (MState start s gs)
  | [] => k (MState start [] gs)
  end.

Definition one_k (p : cclass) (st : mstate)
    (k : mstate -> option mstate) : option mstate :=
  match rest st with
  | c :: s' => if class_matches ignorecase p c then k (consume st s') else None
  | [] => None
  end.

Fixpoint times_k (n : nat) (p : cclass) (st : mstate)
    (k : mstate -> option mstate) : option mstate :=
  match n with
  | O => k st
  | S n' => one_k p st (fun st' => times_k n' p st' k)
  end.

(** The text a sub-match consumed. *)
Definition consumed (st st' : mstate) : pystr :=
  take (length (rest st) - length (rest st')) (rest st).

Fixpoint exec (r : regex) (st : mstate)
    (k : mstate -> option mstate) : option mstate :=
  match r with
  | Bol => if at_start st then k st else None
  | Eol => if at_end (rest st) then k st else None
  | One p => one_k p st k
  | Star p => star_k p (at_start st) (rest st) (groups st) k
  | Plus p => one_k p st (fun st' => star_k p false (rest st') (groups st') k)
  | Times n p => times_k n p st k
  | Opt r1 =>
      match exec r1 st k with
      | Some res => Some res
      | None => k st
      end
  | Group i r1 =>
      exec r1 st (fun st' =>
        k (MState (at_start st') (rest st') ((i, consumed st st') :: groups st')))
  | Seq r1 r2 => exec r1 st (fun st' => exec r2 st' k)
  | Alt r1 r2 =>
      match exec r1 st k with
      | Some res => Some res
      | None => exec r2 st k
      end
  end.

(** A match attempt at the current position. *)
Definition match_here (r : regex) (start : bool) (s : pystr) : option mstate :=
  exec r (MState start s []) Some.

(** [re.match(r, s)]. *)
Definition re_match (r : regex) (s : pystr) : option mstate :=
  match_here r true s.

(** [re.search(r, s)]: the first position where the pattern matches. *)
Fixpoint search_from (r : regex) (start : bool) (s : pystr) : option mstate :=
  match match_here r start s with
  | Some m => Some m
  | None =>
      match s with
      | [] => None
      | _ :: s' => search_from r false s'
      end
  end.

Definition re_search (r : regex) (s : pystr) : option mstate :=
  search_from r true s.

(** [re.sub(r, "", s)]: the matches, found left to right, are cut out.
    [skip] counts the characters of the current match still to drop. *)
Fixpoint sub_from (r : regex) (start : bool) (s : pystr) (skip : nat) : pystr :=
  match s with
  | [] => []
  | c :: s' =>
      match skip with
      | S n => sub_from r false s' n
      | O =>
          match match_here r start s with
          | Some m =>
              match (length s - length (rest m))%nat with
              | S n => sub_from r false s' n
              | O => c :: sub_from r false s' 0
              end
          | None => c :: sub_from r false s' 0
          end
      end
  end.

Definition re_sub_empty (r : regex) (s : pystr) : pystr := sub_from r true s 0.

End Exec.

(** What greedy [p*] takes from the front of a text, and what it leaves. *)
Fixpoint take_class (ic : bool) (p : cclass) (s : pystr) : pystr :=
  match s with
  | c :: s' => if class_matches ic p c then c :: take_class ic p s' else []
  | [] => []
  end.

Fixpoint drop_class (ic : bool) (p : cclass) (s : pystr) : pystr :=
  match s with
  | c :: s' => if class_matches ic p c then drop_class ic p s' else s
  | [] => []
  end.

Definition head_in (ic : bool) (p : cclass) (s : pystr) : bool :=
  match s with
  | c :: _ => class_matches ic p c
  | [] => false
  end.

(** [m.group(i)]: [None] when the group took no part in the match. *)
Fixpoint group (gs : list (nat * pystr)) (i : nat) : option pystr :=
  match gs with
  | [] => None
  | (j, t) :: gs' => if Nat.eqb i j then Some t else group gs' i
  end.

End Re.
Import Re.

(** ** Python values and exceptions *)

Module PyVal.

Local Open Scope N_scope.

Inductive exn :=
| ValueError | TypeError | KeyError | IndexError | OverflowError
| AttributeError | JSONDecodeError.

(** The outcome of an operation that can raise. *)
Inductive res (A : Type) :=
| Ok (a : A)
| Raise (e : exn).
Arguments Ok {A} a.
Arguments Raise {A} e.

#[export] Instance res_ret : MRet res := fun A a => Ok a.
#[export] Instance res_bind : MBind res := fun A B f m =>
  match m with
  | Ok a => f a
  | Raise e => Raise e
  end.

#[export] Instance res_fmap : FMap res := fun A B f m =>
  match m with
  | Ok a => Ok (f a)
  | Raise e => Raise e
  end.

(** [try: m except Exception: h]. *)
Definition try_except {A} (m : res A) (h : res A) : res A :=
  match m with
  | Ok a => Ok a
  | Raise _ => h
  end.

(** The values [json.loads] builds, which are also the values of an
    item's fields. A [dict] keeps its keys in a list; a key is looked up
    at its first occurrence. *)
Inductive pyval :=
| PNone
| PBool (b : bool)
| PInt (z : Z)
| PFloat (f : float)
| PStr (s : pystr)
| PList (l : list pyval)
| PDict (d : list (pystr * pyval)).

(** The truth value of an object in a condition. *)
Definition truthy (v : pyval) : bool :=
  match v with
  | PNone => false
  | PBool b => b
  | PInt z => negb (z =? 0)%Z
  | PFloat f => negb (f =? 0)%float
  | PStr s => match s with [] => false | _ => true end
  | PList l => match l with [] => false | _ => true end
  | PDict d => match d with [] => false | _ => true end
  end.

(** Equality of strings, as a boolean. *)
Definition str_eqb (a b : pystr) : bool := bool_decide (a = b).

(** [d.get(k)] and [k in d] on the key list of a [dict]. *)
Fixpoint dict_get (d : list (pystr * pyval)) (k : pystr) : pyval :=
  match d with
  | [] => PNone
  | (k', v) :: d' => if str_eqb k k' then v else dict_get d' k
  end.

Fixpoint dict_has (d : list (pystr * pyval)) (k : pystr) : bool :=
  match d with
  | [] => false
  | (k', _) :: d' => str_eqb k k' || dict_has d' k
  end.

(** [d[k]]: raises [KeyError] when the key is missing. *)
Definition dict_getitem (d : list (pystr * pyval)) (k : pystr) : res pyval :=
  if dict_has d k then Ok (dict_get d k) else Raise KeyError.

(** [l[0]]: raises [IndexError] on the empty list. *)
Definition list_first (l : list pyval) : res pyval :=
  match l with
  | [] => Raise IndexError
  | v :: _ => Ok v
  end.

(** [v == s] for a string [s]: only a string can be equal to it. *)
Definition eq_str (v : pyval) (s : pystr) : bool :=
  match v with
  | PStr t => str_eqb t s
  | _ => false
  end.

(** The digits of an [int] literal: decimal digits, single underscores
    between them. [seen] tells that the previous character was a digit. *)
Fixpoint digits_value (s : pystr) (acc : Z) (seen : bool) : option Z :=
  match s with
  | [] => if seen then Some acc else None
  | c :: s' =>
      if c =? 0x5F
      then if seen then digits_value s' acc false else None
      else match to_decimal c with
           | Some d => digits_value s' (acc * 10 + Z.of_N d)%Z true
           | None => None
           end
  end.

(** [int(s)] for a [str]: surrounding whitespace, an optional sign, the
    digits, however many; anything else is a [ValueError]. *)
Definition int_of_str (s : pystr) : res Z :=
  let signed :=
    match strip s with
    | c :: t =>
        if c =? 0x2D then (true, t)
        else if c =? 0x2B then (false, t)
        else (false, c :: t)
    | [] => (false, [])
    end in
  match digits_value (snd signed) 0 false with
  | Some n => Ok (if fst signed then - n else n)%Z
  | None => Raise ValueError
  end.

(** [int(f)] for a [float]: truncation towards zero; [ValueError] on a
    NaN, [OverflowError] on an infinity. *)
Definition int_of_float (f : float) : res Z :=
  match Prim2SF f with
  | S754_zero _ => Ok 0%Z
  | S754_finite sign m e =>
      let a := match e with
               | Z0 => Zpos m
               | Zpos p => Z.shiftl (Zpos m) (Zpos p)
               | Zneg p => Z.shiftr (Zpos m) (Zpos p)
               end in
      Ok (if sign then - a else a)%Z
  | S754_infinity _ => Raise OverflowError
  | S754_nan => Raise ValueError
  end.

(** [float(z)] for an [int]: the nearest binary64; [OverflowError] when
    there is none. *)
Definition float_of_int (z : Z) : res float :=
  match binary_normalize prec emax z 0 false with
  | S754_infinity _ => Raise OverflowError
  | x => Ok (SF2Prim x)
  end.

(** [int(v)]. *)
Definition py_int (v : pyval) : res Z :=
  match v with
  | PInt z => Ok z
  | PBool b => Ok (if b then 1 else 0)%Z
  | PFloat f => int_of_float f
  | PStr s => int_of_str s
  | PNone | PList _ | PDict _ => Raise TypeError
  end.

End PyVal.
Export PyVal.

(** ** The helper functions of the module *)

Local Open Scope N_scope.

(** [r"^PT(?:(\d+)H)?(?:(\d+)M)?$"] *)
Definition duration_re : regex :=
  Bol &> word (py "PT")
    (Opt (Group 1 (Plus Digit) &> One (Lit 0x48)) &>
     Opt (Group 2 (Plus Digit) &> One (Lit 0x4D)) &> Eol).

(** [m.group(i) or 0] *)
Definition group_or_0 (m : mstate) (i : nat) : pyval :=
  match group (groups m) i with
  | Some (c :: t) => PStr (c :: t)
  | Some [] | None => PInt 0
  end.

Definition is_str (v : pyval) : bool :=
  match v with PStr _ => true | _ => false end.

(** An ISO 8601 duration ([PT1H30M]) in minutes. *)
Definition iso8601_duration_to_minutes (duration : pyval) : res pyval :=
  if negb (truthy duration) || negb (is_str duration) then Ok PNone
  else
    match duration with
    | PStr d =>
        match re_match false duration_re (strip d) with
        | None => Ok PNone
        | Some m =>
            hours ← py_int (group_or_0 m 1);
            minutes ← py_int (group_or_0 m 2);
            let total := (hours * 60 + minutes)%Z in
            Ok (if (0 <? total)%Z then PInt total else PNone)
        end
    | _ => Ok PNone
    end.

(** A value as a list. *)
Definition as_list (x : pyval) : list pyval :=
  match x with
  | PNone => []
  | PList l => l
  | _ => [x]
  end.

(** [r"\s*-\s*WORD\s*$"], for the three suffixes of page titles. *)
Definition suffix_re (w : pystr) : regex :=
  Star Space &> One (Lit 0x2D) &> Star Space &> word w (Star Space &> Eol).

(** [r"\((\d{4})\)\s*$"] *)
Definition year_re : regex :=
  One (Lit 0x28) &> Group 1 (Times 4 Digit) &> One (Lit 0x29) &>
  Star Space &> Eol.

(** [r"\s*\(\d{4}\)\s*$"] *)
Definition year_strip_re : regex :=
  Star Space &> One (Lit 0x28) &> Times 4 Digit &> One (Lit 0x29) &>
  Star Space &> Eol.

(** The title without its decorations, and the year at its end if there
    is one. *)
Definition clean_title_and_year (text : pyval) : res (pyval * pyval) :=
  if negb (truthy text) then Ok (PNone, PNone)
  else
    match text with
    | PStr t =>
        let s := strip (join (py " ") (split t)) in
        let s := re_sub_empty true (suffix_re (py "SensCritique")) s in
        let s := re_sub_empty true (suffix_re (py "Film")) s in
        let s := re_sub_empty true (suffix_re (py "Série")) s in
        match re_search false year_re s with
        | Some m =>
            match group (groups m) 1 with
            | Some g =>
                year ← py_int (PStr g);
                Ok (PStr (strip (re_sub_empty false year_strip_re s)), PInt year)
            | None => Raise TypeError
            end
        | None => Ok (PStr s, PNone)
        end
    | _ => Raise AttributeError
    end.

(** [r"^(\d{4})"] *)
Definition date_year_re : regex := Bol &> Group 1 (Times 4 Digit).

(** The year at the start of a date ([2019-03-01]). *)
Definition extract_year_from_date (date_str : pyval) : res pyval :=
  if negb (truthy date_str) || negb (is_str date_str) then Ok PNone
  else
    match date_str with
    | PStr d =>
        match re_match false date_year_re (strip d) with
        | Some m =>
            match group (groups m) 1 with
            | Some g => y ← py_int (PStr g); Ok (PInt y)
            | None => Raise TypeError
            end
        | None => Ok PNone
        end
    | _ => Ok PNone
    end.

(** The generator [iter_jsonld_objects], as the list of what it yields. *)
Fixpoint iter_jsonld_objects (data : pyval) : list pyval :=
  match data with
  | PList l => flat_map iter_jsonld_objects l
  | PDict d =>
      (fix graph (kvs : list (pystr * pyval)) : list pyval :=
         match kvs with
         | [] => [data]
         | (k, v) :: kvs' =>
             if str_eqb (py "@graph") k then iter_jsonld_objects v
             else graph kvs'
         end) d
  | _ => []
  end.

(** ** The routines as the specification words them

    The duration parser and the title cleaning of the specification,
    written on the strings themselves, without regular expressions. *)

(** The value of a string of decimal digits. *)
Definition decimal_value (ds : pystr) : Z :=
  fold_left (λ acc c, acc * 10 + Z.of_N (default 0%N (to_decimal c)))%Z ds 0%Z.

(** A non-empty string of decimal digits. *)
Definition is_digits (ds : pystr) : bool :=
  match ds with
  | [] => false
  | _ => forallb isdecimal ds
  end.




(** Two characters that are the same letter, whatever their case. *)
Definition eq_ignorecase (a c : char) : bool := class_matches true (Lit a) c.

(** [s] without the word [w] at its front, case-insensitively. *)
Fixpoint strip_word (w s : pystr) : option pystr :=
  match w with
  | [] => Some s
  | a :: w' =>
      match s with
      | c :: s' => if eq_ignorecase a c then strip_word w' s' else None
      | [] => None
      end
  end.

(** A decoration [- WORD]: a hyphen and the word, with any whitespace
    before, between and after them, and nothing else. *)
Definition is_decoration (w d : pystr) : bool :=
  match lstrip d with
  | c :: d1 =>
      (c =? 0x2D) &&
      match strip_word w (lstrip d1) with
      | Some d2 => forallb isspace d2
      | None => false
      end
  | [] => false
  end.

(** A 4-digit year in parentheses, with any whitespace after it and
    nothing else: its digits, and its value. *)
Definition year_digits (d : pystr) : option pystr :=
  match d with
  | c0 :: d1 :: d2 :: d3 :: d4 :: c5 :: ws =>
      if (c0 =? 0x28) && forallb isdecimal [d1; d2; d3; d4] && (c5 =? 0x29)
         && forallb isspace ws
      then Some [d1; d2; d3; d4]
      else None
  | _ => None
  end.

Definition year_in_parens (d : pystr) : option Z :=
  decimal_value <$> year_digits d.

(** The same with any whitespace before it. *)
Definition is_padded_year (d : pystr) : bool :=
  bool_decide (is_Some (year_in_parens (lstrip d))).

(** [s] without its longest end that is a decoration. *)
Fixpoint strip_trailing (deco : pystr → bool) (s : pystr) : pystr :=
  match s with
  | [] => []
  | c :: s' => if deco s then [] else c :: strip_trailing deco s'
  end.

(** What the longest end of [s] that [f] recognises stands for. *)
Fixpoint find_trailing {A} (f : pystr → option A) (s : pystr) : option A :=
  match f s with
  | Some a => Some a
  | None =>
      match s with
      | [] => None
      | _ :: s' => find_trailing f s'
      end
  end.

(** Title cleaning: collapse the whitespace, strip the site name, then
    [- Film], then [- Série], then take the year in parentheses at the
    end, if there is one, and strip it. *)
Definition spec_clean_title (t : pystr) : pystr * option Z :=
  let s := join (py " ") (split t) in
  let s := strip_trailing (is_decoration (py "SensCritique")) s in
  let s := strip_trailing (is_decoration (py "Film")) s in
  let s := strip_trailing (is_decoration (py "Série")) s in
  match find_trailing year_in_parens s with
  | Some y => (strip (strip_trailing is_padded_year s), Some y)
  | None => (s, None)
  end.

(** An optional integer as a Python value. *)
Definition int_or_none (o : option Z) : pyval :=
  match o with
  | Some z => PInt z
  | None => PNone
  end.

Local Close Scope N_scope.

(** ** The spider *)

Module Spider.

(** [float(z) * rate], then [int(...)]: the size [k] of the sample taken
    from [n] candidates. *)
Definition sample_size (n : nat) (rate : float) : res Z :=
  len ← float_of_int (Z.of_nat n);
  k ← int_of_float (len * rate)%float;
  Ok (Z.max 1 k).

(** The settings read from the environment by [__init__]. *)
Record config := Config {
  seed_urls : list pystr;
  max_items : Z;
  max_pages : Z;
  shuffle : bool;
  sample_rate : float
}.

(** A request the spider yields, with its callback: [parse_film] for a
    film page (the request carries the item [{"url": url}] in its meta),
    [parse_list_page] for a listing page. *)
Inductive request :=
| FilmRequest (url : pystr)
| ListRequest (url : pystr).

(** What [parse_list_page] reads from a response: its URL, the film
    links of the page as the list built at line 183 (the URLs of the
    set [film_urls], in the order of its iteration), and the pagination
    links as the list built at line 234. *)
Record list_response := ListResponse {
  list_url : pystr;
  film_links : list pystr;
  next_page_links : list pystr
}.

(** What [parse_film] reads from a response: its URL, the item of the
    request's meta, and the results of the four selectors ([getall]
    gives a list of strings, [get] a string or [None]). *)
Record film_response := FilmResponse {
  film_url : pystr;
  meta_item : gmap pystr pyval;
  ld_json_list : list pystr;
  og_title : option pystr;
  title_text : option pystr;
  og_image : option pystr
}.

(** A string or [None] as a Python value. *)
Definition str_or_none (o : option pystr) : pyval :=
  match o with
  | Some s => PStr s
  | None => PNone
  end.

Section WithRuntime.

(** The state of the module [random], and [random.shuffle]. *)
Context {RNG : Type}.
Variable py_shuffle : RNG → list pystr → list pystr * RNG.

(** [json.loads], [float] on a [str], and [str] on a value that is not
    one. *)
Variable json_loads : pystr → res pyval.
Variable float_of_str : pystr → res float.
Variable py_repr : pyval → pystr.

(** The mutable attributes of the spider, and the generator of
    [random]. *)
Record state := State {
  seen_film_urls : gset pystr;
  seen_list_pages : gset pystr;
  pages_crawled : Z;
  items_scheduled : Z;
  rng : RNG
}.

Definition init_state (g : RNG) : state := State ∅ ∅ 0 0 g.

(** [if self.shuffle: random.shuffle(l)] *)
Definition shuffle_if (cfg : config) (self : state) (l : list pystr)
    : list pystr * state :=
  if shuffle cfg
  then let '(l', g) := py_shuffle (rng self) l in
       (l', State (seen_film_urls self) (seen_list_pages self)
                  (pages_crawled self) (items_scheduled self) g)
  else (l, self).

(** Lines 188-190: the sample is a prefix of the list. *)
Definition sample (cfg : config) (film_urls : list pystr) : res (list pystr) :=
  if ((0 <? sample_rate cfg) && (sample_rate cfg <? 1))%float
  then k ← sample_size (length film_urls) (sample_rate cfg);
       Ok (take (Z.to_nat k) film_urls)
  else Ok film_urls.

(** Lines 193-203: the loop that schedules the film pages. *)
Fixpoint schedule_films (cfg : config) (self : state) (film_urls : list pystr)
    : state * list request :=
  match film_urls with
  | [] => (self, [])
  | url :: urls =>
      if (max_items cfg <=? items_scheduled self)%Z then (self, [])
      else if decide (url ∈ seen_film_urls self)
      then schedule_films cfg self urls
      else
        let self' := State ({[url]} ∪ seen_film_urls self) (seen_list_pages self)
                           (pages_crawled self) (items_scheduled self + 1) (rng self) in
        let '(self'', reqs) := schedule_films cfg self' urls in
        (self'', FilmRequest url :: reqs)
  end.

(** Lines 238-243: the loop that follows the pagination links. *)
Fixpoint follow_next (cfg : config) (self : state) (links : list pystr)
    : list request :=
  match links with
  | [] => []
  | u :: us =>
      if (max_pages cfg <=? pages_crawled self)%Z then []
      else if decide (u ∈ seen_list_pages self) then follow_next cfg self us
      else ListRequest u :: follow_next cfg self us
  end.

(** The outcome of a callback: the spider afterwards, the requests it
    yielded, and the exception that ended it, if one did. *)
Record outcome := Outcome {
  after : state;
  yielded : list request;
  raised : option exn
}.

(** The generator [parse_list_page], run to its end. If [int] raised at
    line 189, the attributes set before stay set and nothing is
    yielded. *)
Definition parse_list_page (cfg : config) (self : state)
    (response : list_response) : outcome :=
  if decide (list_url response ∈ seen_list_pages self)
  then Outcome self [] None
  else
    let self := State (seen_film_urls self)
                      ({[list_url response]} ∪ seen_list_pages self)
                      (pages_crawled self + 1) (items_scheduled self)
                      (rng self) in
    if (max_pages cfg <? pages_crawled self)%Z then Outcome self [] None
    else
      let '(film_urls, self) := shuffle_if cfg self (film_links response) in
      match sample cfg film_urls with
      | Raise e => Outcome self [] (Some e)
      | Ok film_urls =>
          let '(self, films) := schedule_films cfg self film_urls in
          if (max_pages cfg <=? pages_crawled self)%Z
          then Outcome self films None
          else
            let '(next_links, self) := shuffle_if cfg self (next_page_links response) in
            Outcome self (films ++ follow_next cfg self (take 8 next_links)) None
      end.

(** *** [parse_film] *)

(** An item is a [dict] with string keys. *)
Definition item_get (item : gmap pystr pyval) (key : String.string) : pyval :=
  default PNone (item !! py key).
Definition item_set (key : String.string) (v : pyval)
    (item : gmap pystr pyval) : gmap pystr pyval :=
  <[py key := v]> item.
Arguments item_get item key%_string.
Arguments item_set key%_string v item.

Definition get (d : list (pystr * pyval)) (key : String.string) : pyval :=
  dict_get d (py key).
Arguments get d key%_string.

Definition is_none (v : pyval) : bool :=
  match v with PNone => true | _ => false end.

(** [x in ("Movie", "Film")] *)
Definition movie_or_film (x : pyval) : bool :=
  eq_str x (py "Movie") || eq_str x (py "Film").

(** Lines 265-272, for one object of a block. *)
Definition is_movie (obj : pyval) : bool :=
  match obj with
  | PDict d =>
      match get d "@type" with
      | PList t => existsb movie_or_film t
      | t => movie_or_film t
      end
  | _ => false
  end.

(** Lines 254-279: the loop over the blocks; [movie] is the variable of
    the same name. *)
Fixpoint scan_blocks (movie : pyval) (blocks : list pystr) : pyval :=
  match blocks with
  | [] => movie
  | raw :: blocks' =>
      match strip raw with
      | [] => scan_blocks movie blocks'
      | raw =>
          match json_loads raw with
          | Raise _ => scan_blocks movie blocks'
          | Ok data =>
              let movie :=
                match find is_movie (iter_jsonld_objects data) with
                | Some obj => obj
                | None => movie
                end in
              if truthy movie then movie else scan_blocks movie blocks'
          end
      end
  end.

(** [str(v)] *)
Definition py_str (v : pyval) : pystr :=
  match v with
  | PStr s => s
  | _ => py_repr v
  end.

(** [float(v)] *)
Definition py_float (v : pyval) : res float :=
  match v with
  | PFloat f => Ok f
  | PInt z => float_of_int z
  | PBool b => Ok (if b then 1 else 0)%float
  | PStr s => float_of_str s
  | PNone | PList _ | PDict _ => Raise TypeError
  end.

(** Line 304: [[g.strip() for g in as_list(genres) if isinstance(g, str) and g.strip()]] *)
Fixpoint genres_of (l : list pyval) : list pyval :=
  match l with
  | [] => []
  | PStr g :: l' =>
      match strip g with
      | [] => genres_of l'
      | g' => PStr g' :: genres_of l'
      end
  | _ :: l' => genres_of l'
  end.

(** Lines 308-313 (directors) and 316-321 (actors): the names appended
    by the loop. *)
Fixpoint names_of (l : list pyval) : res (list pystr) :=
  match l with
  | [] => Ok []
  | PDict d :: l' =>
      if truthy (get d "name")
      then name ← dict_getitem d (py "name");
           names ← names_of l';
           Ok (strip (py_str name) :: names)
      else names_of l'
  | PStr d :: l' => names ← names_of l'; Ok (strip d :: names)
  | _ :: l' => names_of l'
  end.

(** Lines 314 and 322: [[x for x in names if x]] *)
Definition non_empty (names : list pystr) : pyval :=
  PList (map PStr (filter (λ x, x ≠ []) names)).

(** Lines 282-288: the title, the raw title and the year guessed from
    the name. *)
Definition set_title (movie : list (pystr * pyval))
    (item : gmap pystr pyval) : res (gmap pystr pyval) :=
  let name := get movie "name" in
  match name with
  | PStr n =>
      match strip n with
      | [] => Ok item
      | stripped =>
          '(clean_title, guessed_year) ← clean_title_and_year name;
          let item := item_set "title" clean_title item in
          let item := item_set "full_title" (PStr stripped) item in
          Ok (if is_none guessed_year then item
              else item_set "year" guessed_year item)
      end
  | _ => Ok item
  end.

(** Lines 290-292: the year of the publication date. *)
Definition set_year (movie : list (pystr * pyval))
    (item : gmap pystr pyval) : res (gmap pystr pyval) :=
  y ← extract_year_from_date (get movie "datePublished");
  Ok (if is_none y then item else item_set "year" y item).

(** Lines 294-299: the poster. *)
Definition set_poster (movie : list (pystr * pyval))
    (item : gmap pystr pyval) : res (gmap pystr pyval) :=
  let img := get movie "image" in
  let img := match img with PDict i => get i "url" | _ => img end in
  img ← match img with
        | PList (x :: l) => list_first (x :: l)
        | _ => Ok img
        end;
  Ok (item_set "poster_url" img item).

(** Lines 301-304: the description and the genres. *)
Definition set_description_genres (movie : list (pystr * pyval))
    (item : gmap pystr pyval) : res (gmap pystr pyval) :=
  let item := item_set "description" (get movie "description") item in
  Ok (item_set "genres" (PList (genres_of (as_list (get movie "genre")))) item).

(** Line 306: the duration. *)
Definition set_duration (movie : list (pystr * pyval))
    (item : gmap pystr pyval) : res (gmap pystr pyval) :=
  duration ← iso8601_duration_to_minutes (get movie "duration");
  Ok (item_set "duration_min" duration item).

(** Lines 308-322: the directors and the actors. *)
Definition set_people (movie : list (pystr * pyval))
    (item : gmap pystr pyval) : res (gmap pystr pyval) :=
  directors ← names_of (as_list (get movie "director"));
  let item := item_set "directors" (non_empty directors) item in
  actors ← names_of (as_list (get movie "actor"));
  Ok (item_set "actors" (non_empty actors) item).

(** [float(rv) if rv is not None else None], and the same with [int]. *)
Definition float_or_none (rv : pyval) : res pyval :=
  if is_none rv then Ok PNone else PFloat <$> py_float rv.
Definition int_or_none_of (rc : pyval) : res pyval :=
  if is_none rc then Ok PNone else PInt <$> py_int rc.

(** Lines 324-337: the rating and the number of ratings. *)
Definition set_rating (movie : list (pystr * pyval))
    (item : gmap pystr pyval) : res (gmap pystr pyval) :=
  let rating := get movie "aggregateRating" in
  let rating := if truthy rating then rating else PDict [] in
  match rating with
  | PDict r =>
      let rv := get r "ratingValue" in
      let rc := get r "ratingCount" in
      item ← try_except
               (v ← float_or_none rv; Ok (item_set "rating" v item))
               (Ok (item_set "rating" PNone item));
      try_except
        (v ← int_or_none_of rc; Ok (item_set "rating_count" v item))
        (Ok (item_set "rating_count" PNone item))
  | _ => Ok item
  end.

(** Lines 282-337: the fields read from the JSON-LD object. *)
Definition fill_from_movie (movie : list (pystr * pyval))
    (item : gmap pystr pyval) : res (gmap pystr pyval) :=
  item ← set_title movie item;
  item ← set_year movie item;
  item ← set_poster movie item;
  item ← set_description_genres movie item;
  item ← set_duration movie item;
  item ← set_people movie item;
  set_rating movie item.

(** Lines 344-351: one turn of the loop over [(ogt, tit)]. *)
Definition fallback_from (txt : pyval) (item : gmap pystr pyval)
    : res (gmap pystr pyval) :=
  if negb (truthy txt) then Ok item
  else
    '(clean_title, guessed_year) ← clean_title_and_year txt;
    let item :=
      if negb (truthy (item_get item "title")) && truthy clean_title
      then item_set "title" clean_title item else item in
    Ok (if is_none (item_get item "year") && negb (is_none guessed_year)
        then item_set "year" guessed_year item else item).

(** Lines 281-337: [if movie: ...]. *)
Definition from_movie (movie : pyval) (item : gmap pystr pyval)
    : res (gmap pystr pyval) :=
  if truthy movie
  then match movie with
       | PDict m => fill_from_movie m item
       | _ => Raise AttributeError
       end
  else Ok item.

(** Lines 340-351: the title and the year from the page metadata. *)
Definition fallback_title_year (response : film_response)
    (item : gmap pystr pyval) : res (gmap pystr pyval) :=
  if negb (truthy (item_get item "title")) || is_none (item_get item "year")
  then item ← fallback_from (str_or_none (og_title response)) item;
       fallback_from (str_or_none (title_text response)) item
  else Ok item.

(** Lines 354-355: the poster from the page metadata. *)
Definition fallback_poster (response : film_response)
    (item : gmap pystr pyval) : gmap pystr pyval :=
  if negb (truthy (item_get item "poster_url"))
  then item_set "poster_url" (str_or_none (og_image response)) item
  else item.

(** The generator [parse_film] yields one item, unless an exception
    ends it before. *)
Definition parse_film (response : film_response) : res (gmap pystr pyval) :=
  let item := meta_item response in
  let item := item_set "url" (PStr (film_url response)) item in
  let movie := scan_blocks PNone (ld_json_list response) in
  item ← from_movie movie item;
  item ← fallback_title_year response item;
  Ok (fallback_poster response item).

(** *** A crawl run

    The engine keeps the requests the spider yielded; a response to one
    of them resumes the callback of the request, in any order. The URL
    of a response is the one the download ended at, which a redirect
    makes differ from the URL of the request. *)

#[export] Instance request_eq_dec : EqDecision request.
Proof. solve_decision. Defined.

Record world := World {
  spider : state;
  pending : list request;
  dispatched : list request;
  emitted : list (gmap pystr pyval)
}.

Inductive event :=
| ListPage (requested : pystr) (response : list_response)
| FilmPage (requested : pystr) (response : film_response).

(** [start_requests]: one listing request per seed. *)
Definition init_world (cfg : config) (g : RNG) : world :=
  let '(urls, self) := shuffle_if cfg (init_state g) (seed_urls cfg) in
  World self (map ListRequest urls) (map ListRequest urls) [].

Fixpoint remove_first (r : request) (l : list request) : list request :=
  match l with
  | [] => []
  | x :: l' => if decide (r = x) then l' else x :: remove_first r l'
  end.

(** The response handed to [parse_film] carries the meta of its request:
    the item [{"url": url}] of line 203. *)
Definition deliver (requested : pystr) (response : film_response) : film_response :=
  FilmResponse (film_url response) {[py "url" := PStr requested]}
    (ld_json_list response) (og_title response) (title_text response)
    (og_image response).

(** One response is processed; a response to a request that is not
    pending does not happen and leaves the world as it is. *)
Definition step (cfg : config) (w : world) (ev : event) : world :=
  match ev with
  | ListPage u response =>
      if decide (ListRequest u ∈ pending w)
      then let o := parse_list_page cfg (spider w) response in
           World (after o)
                 (remove_first (ListRequest u) (pending w) ++ yielded o)
                 (dispatched w ++ yielded o)
                 (emitted w)
      else w
  | FilmPage u response =>
      if decide (FilmRequest u ∈ pending w)
      then World (spider w)
                 (remove_first (FilmRequest u) (pending w))
                 (dispatched w)
                 (match parse_film (deliver u response) with
                  | Ok item => emitted w ++ [item]
                  | Raise _ => emitted w
                  end)
      else w
  end.

Definition run (cfg : config) (g : RNG) (evs : list event) : world :=
  foldl (step cfg) (init_world cfg g) evs.

(** The URLs of the film requests and of the listing requests of a list. *)
Definition film_requests (l : list request) : list pystr :=
  omap (λ r, match r with FilmRequest u => Some u | ListRequest _ => None end) l.
Definition list_requests (l : list request) : list pystr :=
  omap (λ r, match r with ListRequest u => Some u | FilmRequest _ => None end) l.

End WithRuntime.

Arguments item_get item key%_string.
Arguments item_set key%_string v item.
Arguments get d key%_string.

(** *** The settings and the link heuristics *)

Definition default_seed_urls : list pystr :=
  [ py "https://www.senscritique.com/films/tops/top111";
    py "https://www.senscritique.com/liste/les_200_films_les_plus_notes_sur_sens_critique/1499333";
    py "https://www.senscritique.com/liste/les_100_meilleurs_films_de_tous_les_temps/93309" ].

(** The settings of a run whose environment sets no variable. *)
Definition default_config : config :=
  Config default_seed_urls 250 12 true 1%float.

(** Line 183: [p.startswith("/film/")] *)
Definition is_film_path (p : pystr) : bool := startswith p (py "/film/").

(** [r"/\d+(\?|$)"] *)
Definition numbered_re : regex :=
  One (Lit 0x2F%N) &> Plus Digit &> Group 1 (Alt (One (Lit 0x3F%N)) Eol).

(** Lines 230-231: the anchors taken for pagination links. *)
Definition is_next_link (href : pystr) : bool :=
  (contains href (py "/liste/") || contains href (py "/films/")
   || contains href (py "/top"))
  && (bool_decide (is_Some (re_search false numbered_re href))
      || contains href (py "page=")).

(** *** What a sequence of responses shows to the spider *)

(** The URLs of the listing responses, and the film links on them. *)
Fixpoint visited_list_urls (evs : list event) : gset pystr :=
  match evs with
  | [] => ∅
  | ListPage _ response :: evs' => {[list_url response]} ∪ visited_list_urls evs'
  | FilmPage _ _ :: evs' => visited_list_urls evs'
  end.

Fixpoint offered_film_links (evs : list event) : gset pystr :=
  match evs with
  | [] => ∅
  | ListPage _ response :: evs' =>
      list_to_set (film_links response) ∪ offered_film_links evs'
  | FilmPage _ _ :: evs' => offered_film_links evs'
  end.



(** *** A runtime to run examples with

    A generator that counts its calls and reverses the list, a parser
    that knows no document, a [float] that reads no string: enough to
    run the spider on responses that do not depend on them. *)
Definition counting_shuffle (g : nat) (l : list pystr) : list pystr * nat :=
  (rev l, S g).
Definition no_json (raw : pystr) : res pyval := Raise JSONDecodeError.
Definition no_float (s : pystr) : res float := Raise ValueError.
Definition no_repr (v : pyval) : pystr := [].

End Spider.

(** ** Definitions for the proofs *)

Local Open Scope N_scope.

(** A property of the ten digits of every run, checked on the table. *)
Definition digits_all (P : char → bool) : bool :=
  forallb (λ z, forallb (λ d, P (z + d)) [0;1;2;3;4;5;6;7;8;9]) decimal_zeros.

(** ** Collapsing whitespace *)
Definition no_space (w : pystr) : bool := forallb (λ c, negb (isspace c)) w.

(** A text that neither begins nor ends with whitespace. *)
Definition trimmed (s : pystr) : Prop :=
  head_in false Space s = false ∧ head_in false Space (rev s) = false.

Definition starts_with_letter (w : pystr) : bool :=
  match w with
  | a :: _ => ((0x41 <=? a) && (a <=? 0x5A)) || ((0x61 <=? a) && (a <=? 0x7A))
  | [] => false
  end.




Local Close Scope N_scope.

Import Spider.

(** The item [item'] has the fields of [item], except for [keys]. *)
Definition same_except (keys : list pystr) (item item' : gmap pystr pyval) : Prop :=
  ∀ k, existsb (str_eqb k) keys = false → item' !! k = item !! k.







(** ** Example pages and runs *)

(** The JSON-LD block of a film page (written with ['] for the quotes
    of JSON), and what [json.loads] and [float] give on it. *)
Definition dune_block : pystr :=
  py "{'@type': 'Movie', 'name': 'Dune (2021)', 'duration': 'PT2H35M', 'genre': 'Science Fiction', 'director': [{'name': 'Denis Villeneuve'}], 'aggregateRating': {'ratingValue': '7.8', 'ratingCount': 'many'}}".

Definition dune_object : pyval :=
  PDict [ (py "@type", PStr (py "Movie"));
          (py "name", PStr (py "Dune (2021)"));
          (py "duration", PStr (py "PT2H35M"));
          (py "genre", PStr (py "Science Fiction"));
          (py "director", PList [PDict [(py "name", PStr (py "Denis Villeneuve"))]]);
          (py "aggregateRating",
           PDict [ (py "ratingValue", PStr (py "7.8"));
                   (py "ratingCount", PStr (py "many")) ]) ].


Definition dune_float (s : pystr) : res float :=
  if str_eqb s (py "7.8") then Ok 7.8%float else Raise ValueError.


(** A run of two film pages. *)
Definition top_url : pystr := py "https://www.senscritique.com/films/tops/top111".
Definition alien_url : pystr := py "https://www.senscritique.com/film/alien/1".
Definition brazil_url : pystr := py "https://www.senscritique.com/film/brazil/2".

Definition quiet_config : config := Config [top_url] 250 12 false 1%float.

Definition film_page (url : pystr) : film_response :=
  FilmResponse url ∅ [] None None None.

Definition two_films : list event :=
  [ ListPage top_url (ListResponse top_url [alien_url; brazil_url] []);
    FilmPage alien_url (film_page alien_url);
    FilmPage brazil_url (film_page brazil_url) ].


Definition top_gun_path : pystr := py "/film/top_gun/367733".
Definition top_gun_url : pystr := py "https://www.senscritique.com/film/top_gun/367733".

Definition page_of_top_gun : list event :=
  [ ListPage top_url (ListResponse top_url [top_gun_url] [top_gun_url]);
    ListPage top_gun_url (ListResponse top_gun_url [] []) ].

Definition ten_films : list pystr :=
  map (λ n, py "https://www.senscritique.com/film/f/" ++ [n]) 
      [0x30; 0x31; 0x32; 0x33; 0x34; 0x35; 0x36; 0x37; 0x38; 0x39]%N.

Definition half_config : config := Config [top_url] 250 12 false 0.5%float.

Definition last_page_state : @state nat := State ∅ ∅ 11 0 0.
Definition seen_top_state : @state nat := State ∅ {[top_url]} 1 0 0.

(** * The rest of the spider, the loader and the web application

    What the spider does besides its two callbacks ([__init__] on the
    environment, the links that [parse_list_page] takes from a page),
    and the pure functions of [loader/load_to_mongo.py]
    ([normalize_film], the loop of [main]) and of [webapp/app.py]
    ([safe_float], [reorder_genres]). The selectors of a page, the
    file of films, MongoDB and the clock are outside: what they give is
    an argument of the function that uses it. *)

(** ** More of Python's strings *)

Local Open Scope N_scope.

(** [s.split(sep)] for a separator of one character: the pieces between
    the separators, the empty ones too; [cur] is the piece being read. *)
Fixpoint split_on_from (sep : char) (s cur : pystr) : list pystr :=
  match s with
  | [] => [cur]
  | c :: s' =>
      if c =? sep then cur :: split_on_from sep s' []
      else split_on_from sep s' (cur ++ [c])
  end.

Definition split_on (sep : char) (s : pystr) : list pystr :=
  split_on_from sep s [].

(** [s.split(sep)[0]]; the list is never empty. *)
Definition first_piece (sep : char) (s : pystr) : pystr :=
  default [] (head (split_on sep s)).

(** [s.strip(a)] for one character [a]. *)
Fixpoint lstrip_char (a : char) (s : pystr) : pystr :=
  match s with
  | [] => []
  | c :: s' => if c =? a then lstrip_char a s' else s
  end.

Definition strip_char (a : char) (s : pystr) : pystr :=
  rev (lstrip_char a (rev (lstrip_char a s))).

(** [s.replace(a, b)] for characters [a] and [b]. *)
Definition replace_char (a b : char) (s : pystr) : pystr :=
  map (λ c, if c =? a then b else c) s.

(** The year at the start of a date, read on the string itself: four
    decimal digits after the leading whitespace. *)
Definition leading_year (d : pystr) : option Z :=
  match strip d with
  | d1 :: d2 :: d3 :: d4 :: _ =>
      if forallb isdecimal [d1; d2; d3; d4]
      then Some (decimal_value [d1; d2; d3; d4])
      else None
  | _ => None
  end.

(** A slash, decimal digits, and then a question mark or the end of the
    text (or the newline that ends it): what [numbered_re] matches at
    the front of a text. *)
Definition numbered_here (s : pystr) : bool :=
  match s with
  | c :: t =>
      (c =? 0x2F) &&
      match take_class false Digit t with
      | [] => false
      | _ :: _ =>
          match drop_class false Digit t with
          | c' :: t' => (c' =? 0x3F) || at_end (c' :: t')
          | [] => true
          end
      end
  | [] => false
  end.

(** An object that [iter_jsonld_objects] yields as it is: a [dict]
    without the key [@graph]. *)
Definition plain_object (obj : pyval) : Prop :=
  ∃ d, obj = PDict d ∧ dict_has d (py "@graph") = false.


(** The title and the year that line 347 reads from a text of the page,
    when the text gives one. *)
Definition cleaned_title (txt : option pystr) : option pystr :=
  match txt with
  | Some (c :: t) =>
      match (spec_clean_title (c :: t)).1 with
      | [] => None
      | s => Some s
      end
  | _ => None
  end.

Definition guessed_year (txt : option pystr) : option Z :=
  match txt with
  | Some (c :: t) => (spec_clean_title (c :: t)).2
  | _ => None
  end.

Local Close Scope N_scope.

(** ** The settings of a run *)

Module Settings.

Local Open Scope N_scope.

(** [os.getenv(name, dflt)] on the variables of the process. *)
Definition getenv (env : gmap pystr pystr) (name dflt : String.string) : pystr :=
  default (py dflt) (env !! py name).
Arguments getenv env (name dflt)%_string.

(** Line 107: [[u.strip() for u in seed_env.split(",") if u.strip()]] *)
Definition split_seed_urls (seed_env : pystr) : list pystr :=
  map strip (filter (λ u, strip u ≠ []) (split_on 0x2C seed_env)).

(** Line 115: [shuffle_env not in ("0", "false", "False")] *)
Definition shuffle_flag (shuffle_env : pystr) : bool :=
  negb (bool_decide (shuffle_env ∈ [py "0"; py "false"; py "False"])).

Section Init.

(** [random.seed(a)] for an [int] or a [str]: the generator it leaves. *)
Context {RNG : Type}.
Variable py_seed : pyval → RNG.
Variable float_of_str : pystr → res float.

(** Lines 117-122: the generator after [__init__]. *)
Definition seed_rng (seed_value : pystr) (g : RNG) : RNG :=
  match seed_value with
  | [] => g
  | _ =>
      match int_of_str seed_value with
      | Ok n => py_seed (PInt n)
      | Raise _ => py_seed (PStr seed_value)
      end
  end.

(** [__init__]: the settings and the attributes of the spider, from the
    environment and the generator of [random] as it finds them. *)
Definition __init__ (env : gmap pystr pystr) (g : RNG)
    : res (config * @state RNG) :=
  let seed_env := strip (getenv env "SEED_URLS" "") in
  let seed_urls :=
    match seed_env with
    | [] => default_seed_urls
    | _ => split_seed_urls seed_env
    end in
  max_items ← int_of_str (getenv env "MAX_ITEMS" "250");
  max_pages ← int_of_str (getenv env "MAX_PAGES" "12");
  let shuffle := shuffle_flag (strip (getenv env "SHUFFLE" "1")) in
  let g := seed_rng (strip (getenv env "RANDOM_SEED" "")) g in
  sample_rate ← float_of_str (getenv env "SAMPLE_RATE" "1.0");
  Ok (Config seed_urls max_items max_pages shuffle sample_rate, init_state g).

End Init.

End Settings.

(** ** The links of a listing page *)

Module Anchors.

Local Open Scope N_scope.

Section WithUrljoin.

(** [response.urljoin] *)
Variable urljoin : pystr → pystr.

(** Lines 170-181: the set [film_urls], from the [href]s of the anchors
    selected at line 172 and the results of the two [re.findall]. *)
Definition film_paths (hrefs found quoted : list pystr) : gset pystr :=
  list_to_set (map (first_piece 0x3F) (filter (λ h, h ≠ []) hrefs))
  ∪ list_to_set (map (first_piece 0x3F) found)
  ∪ list_to_set (map (λ m, first_piece 0x3F (strip_char 0x22 m)) quoted).

(** Line 183: the list of the film URLs; [elements] stands for the
    order in which the set is iterated. *)
Definition film_urls_of (paths : gset pystr) : list pystr :=
  map urljoin (List.filter is_film_path (elements paths)).

(** Lines 221-232: the set [next_links], from the [href]s of the anchors
    with [rel="next"] and of all the anchors. *)
Definition next_links_of (rel_next hrefs : list pystr) : gset pystr :=
  list_to_set (map urljoin (filter (λ h, h ≠ []) rel_next))
  ∪ list_to_set (map urljoin
                   (List.filter (λ h, bool_decide (h ≠ []) && is_next_link h) hrefs)).

End WithUrljoin.

End Anchors.

(** ** The loader

    [normalize_film] changes the [dict] it is given and returns it; a
    document is used once, so that the value returned stands for it. *)

Module Loader.

(** [d[k] = v]: the value of the key is replaced where the key is, a new
    key comes last. *)
Fixpoint dict_set (d : list (pystr * pyval)) (k : pystr) (v : pyval)
    : list (pystr * pyval) :=
  match d with
  | [] => [(k, v)]
  | (k', v') :: d' =>
      if str_eqb k k' then (k, v) :: d' else (k', v') :: dict_set d' k v
  end.

(** [normalize_film]; [now] is [int(time.time())]. *)
Definition normalize_film (now : Z) (doc : pyval) : pyval :=
  match doc with
  | PDict d =>
      match get d "url" with
      | PStr url =>
          match strip url with
          | [] => PNone
          | stripped =>
              let d := dict_set d (py "url") (PStr stripped) in
              PDict (dict_set d (py "scraped_at") (PInt now))
          end
      | _ => PNone
      end
  | _ => PNone
  end.

(** [UpdateOne({"url": url}, {"$set": doc}, upsert=True)] *)
Record update_one := UpdateOne {
  filter_url : pyval;
  set_doc : pyval
}.

(** The variables of the loop of [main]. *)
Record tally := Tally {
  ops : list update_one;
  kept : Z;
  skipped : Z
}.

(** Lines 98-104: one turn of the loop. *)
Definition keep_or_skip (now : Z) (acc : tally) (film : pyval) : res tally :=
  let doc := normalize_film now film in
  if negb (truthy doc) then Ok (Tally (ops acc) (kept acc) (skipped acc + 1))
  else
    match doc with
    | PDict d =>
        url ← dict_getitem d (py "url");
        Ok (Tally (ops acc ++ [UpdateOne url doc]) (kept acc + 1) (skipped acc))
    | _ => Raise TypeError
    end.

(** Lines 93-104: the loop; [clock i] is the time read for the film at
    index [i]. *)
Fixpoint collect_from (clock : nat → Z) (i : nat) (films : list pyval)
    (acc : tally) : res tally :=
  match films with
  | [] => Ok acc
  | film :: films' =>
      acc ← keep_or_skip (clock i) acc film;
      collect_from clock (S i) films' acc
  end.

Definition collect (clock : nat → Z) (films : list pyval) : res tally :=
  collect_from clock 0 films (Tally [] 0 0).

(** What an operation of the list [ops] is: an upsert of a normalised
    document, filtered by the URL of the document. *)
Definition upsert_by_url (op : update_one) : Prop :=
  ∃ u d n, filter_url op = PStr u ∧ u ≠ [] ∧ strip u = u ∧
           set_doc op = PDict d ∧ get d "url" = PStr u ∧
           get d "scraped_at" = PInt n.

End Loader.

(** ** The web application *)

Module Webapp.

Local Open Scope N_scope.

Section WithRuntime.

Variable float_of_str : pystr → res float.
Variable py_repr : pyval → pystr.

(** [safe_float]: a number typed with a comma or a point, [None] for
    what is not one. *)
Definition safe_float (x : pyval) : pyval :=
  if is_none x then PNone
  else
    let s := replace_char 0x2C 0x2E (strip (py_str py_repr x)) in
    match s with
    | [] => PNone
    | _ =>
        match float_of_str s with
        | Ok f => PFloat f
        | Raise _ => PNone
        end
    end.

End WithRuntime.

(** [reorder_genres], for the genre of the request, a [str]. *)
Definition reorder_genres (genres_list : pyval) (selected_genre : pystr) : pyval :=
  match genres_list, selected_genre with
  | PList l, _ :: _ =>
      if existsb (λ g, eq_str g selected_genre) l
      then PList (PStr selected_genre
                  :: List.filter (λ g, negb (eq_str g selected_genre)) l)
      else genres_list
  | _, _ => genres_list
  end.

End Webapp.

(** ** More examples *)


Definition graph_fields : list (pystr * pyval) :=
  [ (py "@context", PStr (py "https://schema.org"));
    (py "@graph", PList [PDict [(py "@type", PStr (py "WebPage"))]; dune_object]) ].

(** A film page whose JSON-LD object and whose texts disagree; the
    item of the request has a key of its own. *)
Definition alien_block : pystr :=
  py "{'@type': ['Thing', 'Movie'], 'name': 'Alien (1980)', 'datePublished': '1979-05-25', 'image': 'https://media.senscritique.com/alien.jpg'}".

Definition alien_movie : list (pystr * pyval) :=
  [ (py "@type", PList [PStr (py "Thing"); PStr (py "Movie")]);
    (py "name", PStr (py "Alien (1980)"));
    (py "datePublished", PStr (py "1979-05-25"));
    (py "image", PStr (py "https://media.senscritique.com/alien.jpg")) ].

Definition alien_json (raw : pystr) : res pyval :=
  if str_eqb raw alien_block then Ok (PDict alien_movie) else Raise JSONDecodeError.

Definition alien_response : film_response :=
  FilmResponse alien_url
    (<[py "rank" := PInt 3]> {[py "url" := PStr alien_url]})
    [py "  "; py "not json"; alien_block; dune_block]
    (Some (py "Aliens (1986) - Film - SensCritique"))
    (Some (py "Aliens - SensCritique"))
    (Some (py "https://media.senscritique.com/aliens.jpg")).

(** A film page without JSON-LD. *)
Definition brazil_response : film_response :=
  FilmResponse brazil_url {[py "url" := PStr brazil_url]} []
    (Some (py "Brazil - Film - SensCritique"))
    (Some (py "Brazil (1985) - SensCritique"))
    (Some (py "https://media.senscritique.com/brazil.jpg")).

(** A run that may crawl one listing page and has two seeds. *)
Definition best_url : pystr :=
  py "https://www.senscritique.com/liste/les_100_meilleurs_films_de_tous_les_temps/93309".

Definition one_page_config : config := Config [top_url; best_url] 250 1 false 1%float.

Definition first_page : list event :=
  [ ListPage top_url (ListResponse top_url [alien_url] [best_url]) ].

Definition later_pages : list event :=
  [ FilmPage alien_url (film_page alien_url);
    ListPage best_url (ListResponse best_url [brazil_url] [top_url]) ].

(** An environment, a [float] that reads [1.0], a [random.seed] that
    returns the generator of the example runtime. *)
Definition crawl_env : gmap pystr pystr :=
  {[ py "SEED_URLS" := join (py ",") [top_url; best_url];
     py "MAX_ITEMS" := py " 40 ";
     py "SHUFFLE" := py "False" ]}.

Definition one_float (s : pystr) : res float :=
  if str_eqb s (py "1.0") then Ok 1%float else Raise ValueError.

Definition zero_seed (a : pyval) : nat := 0.

(** The anchors of a listing page, and the [urljoin] of the site. *)
Definition site_urljoin (p : pystr) : pystr :=
  py "https://www.senscritique.com" ++ p.

Definition page_hrefs : list pystr :=
  [ py "/film/alien/1?utm=top"; py "/film/alien/1"; py "/film/brazil/2" ].

(** A document of the file of films. *)
Definition alien_doc : list (pystr * pyval) :=
  [ (py "title", PStr (py "Alien"));
    (py "url", PStr (py " https://www.senscritique.com/film/alien/1 ")) ].

Definition alien_genres : list pyval :=
  [ PStr (py "Horreur"); PStr (py "Science-fiction"); PStr (py "Thriller") ].

(** * Properties *)

(** ** Strings and patterns *)

Section Strings.

Local Open Scope N_scope.

(** ** Characters *)
Lemma decimal_in_inv (zs : list N) (c : char) (d : N) :
  decimal_in zs c = Some d → ∃ z, z ∈ zs ∧ c = z + d ∧ d < 10.
Proof.
  induction zs as [|z zs IH]; simpl; [done|].
  destruct ((z <=? c) && (c <? z + 10)) eqn:E.
  - intros [= <-]. apply andb_true_iff in E as [E1%N.leb_le E2%N.ltb_lt].
    exists z. split_and!; [left|lia|lia].
  - intros (z' & ? & ? & ?)%IH. exists z'. split_and!; [by right|done|done].
Qed.

Lemma digits_all_spec (P : char → bool) (c : char) :
  digits_all P = true → isdecimal c = true → P c = true.
Proof.
  unfold digits_all, isdecimal, to_decimal. intros Hall Hc.
  destruct (decimal_in decimal_zeros c) as [d|] eqn:E; [|done].
  apply decimal_in_inv in E as (z & Hz & -> & Hd).
  rewrite forallb_forall in Hall.
  specialize (Hall z ltac:(by apply list_elem_of_In)).
  rewrite forallb_forall in Hall. apply Hall.
  apply list_elem_of_In.
  assert (d = 0 ∨ d = 1 ∨ d = 2 ∨ d = 3 ∨ d = 4 ∨ d = 5 ∨ d = 6 ∨ d = 7
          ∨ d = 8 ∨ d = 9) as H by lia.
  set_solver.
Qed.

Lemma decimal_not_space (c : char) : isdecimal c = true → isspace c = false.
Proof.
  intros H. apply negb_true_iff.
  by apply (digits_all_spec (λ c, negb (isspace c))).
Qed.

Lemma decimal_not (c a : char) :
  isdecimal a = false → isdecimal c = true → (c =? a) = false.
Proof.
  intros Ha Hc. apply N.eqb_neq. intros ->. congruence.
Qed.

(** Decide the comparisons of a goal, one at a time. *)
Ltac ncases :=
  repeat match goal with
  | |- context [N.leb ?a ?b] => destruct (N.leb_spec a b); try lia
  | |- context [N.ltb ?a ?b] => destruct (N.ltb_spec a b); try lia
  | |- context [N.eqb ?a ?b] => destruct (N.eqb_spec a b); try lia
  | H : context [N.leb ?a ?b] |- _ => destruct (N.leb_spec a b); try lia
  | H : context [N.ltb ?a ?b] |- _ => destruct (N.ltb_spec a b); try lia
  | H : context [N.eqb ?a ?b] |- _ => destruct (N.eqb_spec a b); try lia
  end.

(** [sre_lower], case by case. *)
Lemma sre_lower_cases (c : char) :
  (0x41 ≤ c ≤ 0x5A ∧ sre_lower c = c + 32) ∨
  (0xC0 ≤ c ≤ 0xDE ∧ c ≠ 0xD7 ∧ sre_lower c = c + 32) ∨
  (c = 0x130 ∧ sre_lower c = 0x69) ∨
  (c = 0x212A ∧ sre_lower c = 0x6B) ∨
  ((c < 0x41 ∨ 0x5A < c < 0xC0 ∨ c = 0xD7 ∨ 0xDE < c) ∧ c ≠ 0x130 ∧ c ≠ 0x212A
   ∧ sre_lower c = c).
Proof. unfold sre_lower. ncases; simpl; lia. Qed.

(** Ignoring case, a character matches a letter when its lower case is
    the letter's, or one of its fixes. *)
Lemma eq_ignorecase_inv (a c : char) :
  eq_ignorecase a c = true →
  sre_lower c = sre_lower a ∨ sre_lower c ∈ ignorecase_fixes (sre_lower a).
Proof.
  unfold eq_ignorecase, class_matches.
  intros [H%N.eqb_eq|H]%orb_true_iff; [by left|right].
  apply existsb_exists in H as (x & Hx%list_elem_of_In & ->%N.eqb_eq). done.
Qed.

(** The characters that match an ASCII letter when case is ignored. *)
Lemma eq_ignorecase_letter (a c : char) :
  0x41 ≤ a ≤ 0x5A ∨ 0x61 ≤ a ≤ 0x7A →
  eq_ignorecase a c = true →
  0x41 ≤ c ≤ 0x5A ∨ 0x61 ≤ c ≤ 0x7A ∨ c = 0x130 ∨ c = 0x131 ∨ c = 0x17F
  ∨ c = 0x212A.
Proof.
  intros Ha Hc. apply eq_ignorecase_inv in Hc.
  assert (Hlo : 0x61 ≤ sre_lower a ≤ 0x7A)
    by (destruct (sre_lower_cases a) as [?|[?|[?|[?|?]]]]; lia).
  assert (Hfix : ∀ x, x ∈ ignorecase_fixes (sre_lower a) → x = 0x131 ∨ x = 0x17F).
  { unfold ignorecase_fixes. intros x. ncases; set_solver. }
  destruct Hc as [Hc|Hc%Hfix];
    destruct (sre_lower_cases c) as [?|[?|[?|[?|?]]]]; lia.
Qed.

Lemma letter_not_space (a c : char) :
  0x41 ≤ a ≤ 0x5A ∨ 0x61 ≤ a ≤ 0x7A →
  eq_ignorecase a c = true → isspace c = false.
Proof.
  intros Ha Hc. pose proof (eq_ignorecase_letter a c Ha Hc) as H.
  clear Hc. unfold isspace.
  destruct H as [H|[H|[->|[->|[->| ->]]]]]; try done; ncases; done.
Qed.

Lemma hyphen_ignorecase (c : char) : eq_ignorecase 0x2D c = (c =? 0x2D).
Proof.
  destruct (eq_ignorecase 0x2D c) eqn:E.
  - apply eq_ignorecase_inv in E as [E|E]; [|vm_compute in E; set_solver].
    change (sre_lower 0x2D) with 0x2D in E. symmetry. apply N.eqb_eq.
    destruct (sre_lower_cases c) as [?|[?|[?|[?|?]]]]; lia.
  - destruct (N.eqb_spec c 0x2D) as [->|]; [done|done].
Qed.

(** When the continuation fails on every text that begins in the class, [p*] takes all it
    can and gives nothing back. *)
Lemma star_k_greedy (ic : bool) (p : cclass) (start : bool) (s : pystr)
    (gs : list (nat * pystr)) (k : mstate → option mstate) :
  (∀ c s' b, class_matches ic p c = true → k (MState b (c :: s') gs) = None) →
  star_k ic p start s gs k
  = k (MState (start && negb (head_in ic p s)) (drop_class ic p s) gs).
Proof.
  intros Hk. revert start. induction s as [|c s IH]; intros start; simpl.
  - by rewrite andb_true_r.
  - destruct (class_matches ic p c) eqn:E; simpl.
    + rewrite IH, andb_false_r. simpl.
      destruct (k (MState false (drop_class ic p s) gs)) eqn:Ek; [done|].
      by apply Hk.
    + by rewrite andb_true_r.
Qed.

Lemma drop_class_space (ic : bool) (s : pystr) : drop_class ic Space s = lstrip s.
Proof. induction s as [|c s IH]; simpl; [done|]. by rewrite IH. Qed.

(** [\s*$]: the rest of the text must be whitespace. *)
Lemma star_space_end (ic : bool) (start : bool) (s : pystr) (gs : list (nat * pystr)) :
  star_k ic Space start s gs (λ st, exec ic Eol st Some)
  = if forallb isspace s
    then Some (MState (start && bool_decide (s = [])) [] gs)
    else None.
Proof.
  revert start. induction s as [|c s IH]; intros start; simpl.
  - by rewrite andb_true_r.
  - destruct (isspace c) eqn:E; simpl.
    + rewrite IH. destruct (forallb isspace s) eqn:Es; simpl.
      * by rewrite andb_false_r.
      * destruct s; [done|]. by destruct (c =? 10).
    + destruct s; [|done]. simpl. destruct (N.eqb_spec c 10) as [->|]; [by vm_compute in E|done].
Qed.

(** A word of the pattern, when case is ignored. *)
Lemma exec_word (w : pystr) (r : regex) (st : mstate) (k : mstate → option mstate) :
  exec true (word w r) st k
  = match strip_word w (rest st) with
    | Some s' =>
        exec true r (MState (at_start st && bool_decide (w = [])) s' (groups st)) k
    | None => None
    end.
Proof.
  revert st. induction w as [|a w IH]; intros [b s gs]; cbn [word exec strip_word rest].
  - cbn. by rewrite andb_true_r.
  - unfold one_k. cbn [rest]. destruct s as [|c s]; [done|].
    change (class_matches true (Lit a) c) with (eq_ignorecase a c).
    destruct (eq_ignorecase a c); [|done].
    rewrite IH. cbn. by rewrite andb_false_r.
Qed.

(** The suffix patterns match exactly the decorations, to the end of
    the text. *)
Lemma suffix_re_spec (a : char) (w : pystr) (start : bool) (s : pystr) :
  0x41 ≤ a ≤ 0x5A ∨ 0x61 ≤ a ≤ 0x7A →
  match_here true (suffix_re (a :: w)) start s
  = if is_decoration (a :: w) s then Some (MState false [] []) else None.
Proof.
  intros Ha. unfold match_here, suffix_re, is_decoration.
  cbn [exec]. cbn [at_start rest groups].
  rewrite star_k_greedy.
  2:{ intros c s' b Hc. unfold one_k. cbn [rest].
      change (class_matches true (Lit 0x2D) c) with (eq_ignorecase 0x2D c).
      rewrite hyphen_ignorecase. destruct (N.eqb_spec c 0x2D) as [->|]; done. }
  rewrite drop_class_space. unfold one_k at 1. cbn [rest].
  destruct (lstrip s) as [|c d1]; [done|].
  change (class_matches true (Lit 0x2D) c) with (eq_ignorecase 0x2D c).
  rewrite hyphen_ignorecase. destruct (c =? 0x2D); [|done].
  cbn [consume at_start rest groups andb].
  rewrite star_k_greedy.
  2:{ intros c' s' b Hc. cbn [word exec]. unfold one_k. cbn [rest].
      fold (eq_ignorecase a c').
      destruct (eq_ignorecase a c') eqn:E; [|done].
      apply (letter_not_space a c' Ha) in E. simpl in Hc. congruence. }
  rewrite drop_class_space, exec_word. cbn [rest].
  destruct (strip_word (a :: w) (lstrip d1)) as [d2|]; [|done].
  cbn [exec at_start rest groups]. rewrite star_space_end.
  by destruct (forallb isspace d2).
Qed.

(** Cutting out the matches of a pattern that matches to the end of the
    text leaves what is before the first match. *)
Lemma sub_from_all (ic : bool) (r : regex) (s : pystr) :
  sub_from ic r false s (length s) = [].
Proof. induction s as [|c s IH]; simpl; [done|apply IH]. Qed.

Lemma sub_from_trailing (ic : bool) (r : regex) (deco : pystr → bool)
    (start : bool) (s : pystr) :
  (∀ b d, if deco d
          then ∃ m, match_here ic r b d = Some m ∧ rest m = []
          else match_here ic r b d = None) →
  sub_from ic r start s 0 = strip_trailing deco s.
Proof.
  intros Hr. revert start. induction s as [|c s IH]; intros start; [done|].
  cbn [sub_from strip_trailing].
  specialize (Hr start (c :: s)). destruct (deco (c :: s)).
  - destruct Hr as (m & -> & ->). simpl. apply sub_from_all.
  - rewrite Hr. by rewrite IH.
Qed.

Lemma sub_suffix_re (a : char) (w : pystr) (s : pystr) :
  0x41 ≤ a ≤ 0x5A ∨ 0x61 ≤ a ≤ 0x7A →
  re_sub_empty true (suffix_re (a :: w)) s
  = strip_trailing (is_decoration (a :: w)) s.
Proof.
  intros Ha. apply sub_from_trailing. intros b d.
  rewrite (suffix_re_spec a w b d Ha).
  destruct (is_decoration (a :: w) d); [by eexists|done].
Qed.

(** ** Stripping *)
Lemma lstrip_no_space (s : pystr) :
  forallb (λ c, negb (isspace c)) s = true → lstrip s = s.
Proof.
  destruct s as [|c s]; [done|]. simpl.
  intros [H%negb_true_iff _]%andb_true_iff. by rewrite H.
Qed.

Lemma strip_no_space (s : pystr) :
  forallb (λ c, negb (isspace c)) s = true → strip s = s.
Proof.
  intros H. unfold strip, rstrip. rewrite (lstrip_no_space s H).
  rewrite lstrip_no_space, rev_involutive; [done|].
  rewrite forallb_forall in *. intros c Hc. apply H. by apply in_rev.
Qed.

(** ** [int] on digits *)
Lemma digits_value_decimal (ds : pystr) (acc : Z) (seen : bool) :
  forallb isdecimal ds = true →
  (ds ≠ [] ∨ seen = true) →
  digits_value ds acc seen
  = Some (fold_left (λ acc c, acc * 10 + Z.of_N (default 0%N (to_decimal c)))%Z ds acc).
Proof.
  revert acc seen. induction ds as [|c ds IH]; intros acc seen Hds Hne; simpl.
  - destruct Hne as [?| ->]; done.
  - simpl in Hds. apply andb_true_iff in Hds as [Hc Hds].
    rewrite (decimal_not c 0x5F) by done.
    unfold isdecimal in Hc. destruct (to_decimal c) as [d|]; [|done]. simpl.
    apply IH; [done|by right].
Qed.

Lemma int_of_digits (ds : pystr) :
  is_digits ds = true → int_of_str ds = Ok (decimal_value ds).
Proof.
  unfold is_digits. destruct ds as [|c ds]; [done|]. intros Hds.
  unfold int_of_str. rewrite strip_no_space.
  2:{ rewrite forallb_forall in *. intros x Hx. apply negb_true_iff, decimal_not_space. by apply Hds. }
  pose proof Hds as Hc. simpl in Hc. apply andb_true_iff in Hc as [Hc _].
  rewrite (decimal_not c 0x2D), (decimal_not c 0x2B) by done. simpl snd. simpl fst.
  rewrite digits_value_decimal; [done|done|by left].
Qed.

(** ** The year patterns *)
Lemma consumed_4 (b b' : bool) (d1 d2 d3 d4 : char) (s : pystr) (gs gs' : list (nat * pystr)) :
  consumed (MState b (d1 :: d2 :: d3 :: d4 :: s) gs) (MState b' s gs')
  = [d1; d2; d3; d4].
Proof.
  unfold consumed. simpl rest. simpl length.
  replace (S (S (S (S (length s)))) - length s)%nat with 4%nat by lia. done.
Qed.

Lemma year_re_spec (start : bool) (s : pystr) :
  match_here false year_re start s
  = (λ ds, MState false [] [(1%nat, ds)]) <$> year_digits s.
Proof.
  unfold match_here, year_re, year_digits.
  destruct s as [|c0 [|d1 [|d2 [|d3 [|d4 [|c5 ws]]]]]];
    cbn [exec one_k times_k rest consume class_matches at_start groups forallb];
    try (repeat case_match; done).
  destruct (c0 =? 40); [|done].
  destruct (isdecimal d1); [|done].
  destruct (isdecimal d2); [|done].
  destruct (isdecimal d3); [|done].
  destruct (isdecimal d4); [|done].
  destruct (c5 =? 41); [|done].
  cbn [andb]. rewrite star_space_end.
  destruct (forallb isspace ws); [|done].
  unfold consume. cbn [at_start rest groups]. by rewrite consumed_4.
Qed.

Lemma year_strip_re_spec (start : bool) (s : pystr) :
  match_here false year_strip_re start s
  = if is_padded_year s then Some (MState false [] []) else None.
Proof.
  unfold match_here, year_strip_re, is_padded_year, year_in_parens.
  cbn [exec at_start rest groups].
  rewrite star_k_greedy.
  2:{ intros c s' b Hc. unfold one_k. cbn [rest class_matches].
      destruct (N.eqb_spec c 0x28) as [->|]; done. }
  rewrite drop_class_space. unfold year_digits.
  destruct (lstrip s) as [|c0 [|d1 [|d2 [|d3 [|d4 [|c5 ws]]]]]];
    cbn [exec one_k times_k rest consume class_matches at_start groups forallb];
    try (repeat case_match; done).
  destruct (c0 =? 40); [|done].
  destruct (isdecimal d1); [|done].
  destruct (isdecimal d2); [|done].
  destruct (isdecimal d3); [|done].
  destruct (isdecimal d4); [|done].
  destruct (c5 =? 41); [|done].
  cbn [andb]. rewrite star_space_end.
  by destruct (forallb isspace ws).
Qed.

(** [re.search] finds what the longest matching end of the text stands
    for. *)
Lemma search_from_find (ic : bool) (r : regex) (f : pystr → option mstate)
    (start : bool) (s : pystr) :
  (∀ b d, match_here ic r b d = f d) →
  search_from ic r start s = find_trailing f s.
Proof.
  intros Hf. revert start. induction s as [|c s IH]; intros start; simpl.
  - rewrite Hf. by destruct (f []).
  - rewrite Hf. destruct (f (c :: s)); [done|apply IH].
Qed.

Lemma find_trailing_fmap {A B} (g : A → B) (f : pystr → option A) (s : pystr) :
  find_trailing (λ d, g <$> f d) s = g <$> find_trailing f s.
Proof.
  induction s as [|c s IH]; simpl.
  - by destruct (f []).
  - destruct (f (c :: s)); [done|apply IH].
Qed.

Lemma find_trailing_Some {A} (f : pystr → option A) (s : pystr) (a : A) :
  find_trailing f s = Some a → ∃ d, f d = Some a.
Proof.
  induction s as [|c s IH]; simpl.
  - destruct (f []) eqn:E; [|done]. intros [= <-]. by exists [].
  - destruct (f (c :: s)) eqn:E; [|done]. intros [= <-]. by exists (c :: s).
Qed.

Lemma year_digits_digits (d ds : pystr) :
  year_digits d = Some ds → is_digits ds = true.
Proof.
  unfold year_digits.
  destruct d as [|c0 [|d1 [|d2 [|d3 [|d4 [|c5 ws]]]]]]; try done.
  case_match eqn:E; [|done]. intros [= <-].
  apply andb_true_iff in E as [E _]. apply andb_true_iff in E as [E _].
  apply andb_true_iff in E as [_ E]. done.
Qed.

Lemma split_from_words (s cur : pystr) :
  no_space cur = true →
  Forall (λ w, w ≠ [] ∧ no_space w = true) (split_from s cur).
Proof.
  revert cur. induction s as [|c s IH]; intros cur Hcur; simpl.
  - destruct cur; [done|]. by repeat constructor.
  - destruct (isspace c) eqn:E.
    + destruct cur; [by apply IH|]. constructor; [done|by apply IH].
    + apply IH. unfold no_space in *. rewrite forallb_app. simpl.
      by rewrite Hcur, E.
Qed.

Lemma strip_trimmed (s : pystr) : trimmed s → strip s = s.
Proof.
  intros [H1 H2]. unfold strip, rstrip.
  assert (Hl : ∀ t, head_in false Space t = false → lstrip t = t).
  { intros [|c t]; [done|]. simpl. by intros ->. }
  rewrite (Hl s H1), (Hl _ H2). apply rev_involutive.
Qed.

Lemma head_in_app (s t : pystr) :
  s ≠ [] → head_in false Space (s ++ t) = head_in false Space s.
Proof. by destruct s. Qed.

Lemma word_trimmed (w : pystr) : w ≠ [] → no_space w = true → trimmed w.
Proof.
  intros Hne Hw. unfold trimmed, no_space in *. rewrite forallb_forall in Hw.
  split.
  - destruct w as [|c w]; [done|]. simpl. apply negb_true_iff, Hw. by left.
  - destruct (rev w) as [|c w'] eqn:E; [done|]. simpl.
    apply negb_true_iff, Hw, in_rev. rewrite E. by left.
Qed.

Lemma join_trimmed (ws : list pystr) :
  Forall (λ w, w ≠ [] ∧ no_space w = true) ws → trimmed (join (py " ") ws).
Proof.
  induction 1 as [|w ws [Hne Hw] Hws IH]; [done|].
  destruct ws as [|w' ws]; [by apply word_trimmed|].
  change (join (py " ") (w :: w' :: ws)) with (w ++ py " " ++ join (py " ") (w' :: ws)).
  destruct (word_trimmed w Hne Hw) as [H1 H2]. destruct IH as [H3 H4].
  assert (Hj : join (py " ") (w' :: ws) ≠ []).
  { inversion Hws as [|? ? [Hne' _] _]; subst. destruct ws; simpl; [done|].
    by destruct w'. }
  split.
  - by rewrite head_in_app.
  - rewrite !rev_app_distr, <- app_assoc. rewrite head_in_app; [done|].
    by destruct (join (py " ") (w' :: ws)) using rev_ind; [|rewrite rev_app_distr].
Qed.

Lemma collapse_trimmed (t : pystr) :
  strip (join (py " ") (split t)) = join (py " ") (split t).
Proof. apply strip_trimmed, join_trimmed, split_from_words. done. Qed.

Lemma sub_suffix_word (w s : pystr) :
  starts_with_letter w = true →
  re_sub_empty true (suffix_re w) s = strip_trailing (is_decoration w) s.
Proof.
  destruct w as [|a w]; [done|]. simpl. intros H.
  apply sub_suffix_re.
  apply orb_true_iff in H as [H|H]; apply andb_true_iff in H as [?%N.leb_le ?%N.leb_le]; lia.
Qed.

Lemma sub_year_strip (s : pystr) :
  re_sub_empty false year_strip_re s = strip_trailing is_padded_year s.
Proof.
  apply sub_from_trailing. intros b d. rewrite year_strip_re_spec.
  destruct (is_padded_year d); [by eexists|done].
Qed.

Lemma search_year (s : pystr) :
  re_search false year_re s
  = (λ ds, MState false [] [(1%nat, ds)]) <$> find_trailing year_digits s.
Proof.
  unfold re_search.
  rewrite (search_from_find false year_re
             (λ d, (λ ds, MState false [] [(1%nat, ds)]) <$> year_digits d)).
  - apply find_trailing_fmap.
  - intros b d. apply year_re_spec.
Qed.

(** The title cleaning of the source does what the specification
    words, on every non-empty string. *)
Lemma clean_title_str (t : pystr) :
  t ≠ [] →
  clean_title_and_year (PStr t)
  = Ok (PStr (spec_clean_title t).1, int_or_none (spec_clean_title t).2).
Proof.
  intros Ht. unfold clean_title_and_year, spec_clean_title.
  destruct t as [|c t]; [done|]. cbn [truthy negb].
  rewrite collapse_trimmed.
  rewrite !sub_suffix_word by done.
  set (s := strip_trailing _ (strip_trailing _ (strip_trailing _ _))).
  rewrite search_year. unfold year_in_parens.
  rewrite (find_trailing_fmap decimal_value).
  destruct (find_trailing year_digits s) as [ds|] eqn:E; [|done].
  cbn [fmap option_fmap option_map groups group Nat.eqb].
  apply find_trailing_Some in E as (d & Hd%year_digits_digits).
  cbn [py_int]. rewrite (int_of_digits ds Hd). cbn [mbind res_bind].
  by rewrite sub_year_strip.
Qed.

Lemma split_from_spaces (s : pystr) :
  forallb isspace s = true → split_from s [] = [].
Proof.
  induction s as [|c s IH]; [done|]. simpl.
  intros [-> H]%andb_true_iff. by apply IH.
Qed.

Lemma take_drop_class (ic : bool) (p : cclass) (s : pystr) :
  take_class ic p s ++ drop_class ic p s = s.
Proof.
  induction s as [|c s IH]; simpl; [done|].
  destruct (class_matches ic p c); simpl; [by rewrite IH|done].
Qed.





Lemma at_end_digit (c : char) (t : pystr) : isdecimal c = true → at_end (c :: t) = false.
Proof.
  intros Hc. destruct t; [|done]. simpl. by apply decimal_not.
Qed.



Lemma class_digits (ds : pystr) (a : char) (s : pystr) :
  forallb isdecimal ds = true → isdecimal a = false →
  take_class false Digit (ds ++ a :: s) = ds ∧
  drop_class false Digit (ds ++ a :: s) = a :: s.
Proof.
  intros Hds Ha. induction ds as [|c ds IH]; simpl.
  - by rewrite Ha.
  - simpl in Hds. apply andb_true_iff in Hds as [-> Hds].
    destruct (IH Hds) as [-> ->]. done.
Qed.

Lemma is_digits_forall (ds : pystr) :
  is_digits ds = true → ds ≠ [] ∧ forallb isdecimal ds = true.
Proof. by destruct ds. Qed.





Lemma lstrip_head_no_space (s : pystr) (c : char) (t : pystr) :
  lstrip s = c :: t → isspace c = false.
Proof.
  induction s as [|x s IH]; simpl; [done|].
  destruct (isspace x) eqn:E; [done|]. by intros [= <- _].
Qed.




Lemma date_year_re_spec (s : pystr) :
  re_match false date_year_re s
  = match s with
    | d1 :: d2 :: d3 :: d4 :: t =>
        if forallb isdecimal [d1; d2; d3; d4]
        then Some (MState false t [(1%nat, [d1; d2; d3; d4])])
        else None
    | _ => None
    end.
Proof.
  unfold re_match, match_here, date_year_re.
  destruct s as [|d1 [|d2 [|d3 [|d4 t]]]];
    cbn [exec one_k times_k rest consume class_matches at_start groups forallb];
    try (repeat case_match; done).
  destruct (isdecimal d1); [|done].
  destruct (isdecimal d2); [|done].
  destruct (isdecimal d3); [|done].
  destruct (isdecimal d4); [|done].
  cbn [andb]. unfold consume. cbn [at_start rest groups]. by rewrite consumed_4.
Qed.




(** C4, amended. On a false input ([None], the empty string) the title
    cleaning returns [(None, None)]. On every other string it collapses
    the whitespace, strips a trailing [- SensCritique], then a trailing
    [- Film], then a trailing [- Série] (each a hyphen and the word,
    compared case-insensitively, with any whitespace around them), and
    then, if what is left ends in a 4-digit year in parentheses, takes
    that year and strips the parentheses with it. In particular
    [Inception (2010) - SensCritique] gives ([Inception], 2010),
    [Amélie - Film] gives ([Amélie], [None]) and [  Blade   Runner  ]
    gives ([Blade Runner], [None]). *)
Theorem clean_title_and_year_spec (text : pyval) :
  (truthy text = false → clean_title_and_year text = Ok (PNone, PNone)) ∧
  (∀ t, text = PStr t → t ≠ [] →
        clean_title_and_year text
        = Ok (PStr (spec_clean_title t).1, int_or_none (spec_clean_title t).2)) ∧
  clean_title_and_year (PStr (py "Inception (2010) - SensCritique"))
  = Ok (PStr (py "Inception"), PInt 2010) ∧
  clean_title_and_year (PStr (py "Amélie - Film")) = Ok (PStr (py "Amélie"), PNone) ∧
  clean_title_and_year (PStr (py "  Blade   Runner  "))
  = Ok (PStr (py "Blade Runner"), PNone).
Proof.
  split_and!; try reflexivity.
  - intros H. unfold clean_title_and_year. by rewrite H.
  - intros t -> Ht. by apply clean_title_str.
Qed.

(** C10. The title cleaning returns [None] as the title exactly when
    its input is false ([None] or the empty string). For a non-empty
    string it returns a string: the empty string when the input is
    whitespace only, or when nothing is left after the suffix is
    stripped, as for [- Film]. *)
Theorem empty_title_is_empty_string (text : pyval) :
  (∀ title year, clean_title_and_year text = Ok (title, year) →
                 (title = PNone ↔ truthy text = false)) ∧
  (∀ t, text = PStr t → t ≠ [] →
        ∃ s year, clean_title_and_year text = Ok (PStr s, year)) ∧
  (∀ t, text = PStr t → t ≠ [] → forallb isspace t = true →
        clean_title_and_year text = Ok (PStr [], PNone)) ∧
  clean_title_and_year (PStr (py "- Film")) = Ok (PStr [], PNone) ∧
  clean_title_and_year (PStr []) = Ok (PNone, PNone) ∧
  clean_title_and_year PNone = Ok (PNone, PNone).
Proof.
  split_and!; try reflexivity.
  - intros title year. unfold clean_title_and_year.
    destruct (truthy text) eqn:E; cbn [negb].
    + destruct text as [|b|z|f|t|l|kv]; try done.
      pose proof (clean_title_str t) as H. unfold clean_title_and_year in H.
      destruct t as [|c t]; [done|]. cbn [truthy negb] in H. rewrite H by done.
      by intros [= <- <-].
    + by intros [= <- <-].
  - intros t -> Ht. rewrite clean_title_str by done. by eexists _, _.
  - intros t -> Ht Hsp. rewrite clean_title_str by done.
    unfold spec_clean_title, split. by rewrite (split_from_spaces t Hsp).
Qed.

End Strings.

(** ** The extractor *)

Section Extractor.

Variable json_loads : pystr → res pyval.
Variable float_of_str : pystr → res float.
Variable py_repr : pyval → pystr.

Local Abbreviation names_of := (names_of py_repr).
Local Abbreviation set_people := (set_people py_repr).
Local Abbreviation set_rating := (set_rating float_of_str).
Local Abbreviation float_or_none := (float_or_none float_of_str).
Local Abbreviation fill_from_movie := (fill_from_movie float_of_str py_repr).
Local Abbreviation parse_film := (parse_film json_loads float_of_str py_repr).
Local Abbreviation scan_blocks := (scan_blocks json_loads).

Lemma same_except_refl (keys : list pystr) (item : gmap pystr pyval) :
  same_except keys item item.
Proof. by intros k _. Qed.

Lemma item_set_except (key : String.string) (v : pyval) (keys : list pystr)
    (item item' : gmap pystr pyval) :
  existsb (str_eqb (py key)) keys = true →
  same_except keys item item' → same_except keys item (item_set key v item').
Proof.
  intros Hkey H k Hk. unfold item_set.
  rewrite lookup_insert_ne; [by apply H|]. intros <-. congruence.
Qed.

Lemma item_set_lookup (key : String.string) (v : pyval) (item : gmap pystr pyval) :
  item_set key v item !! py key = Some v.
Proof. apply lookup_insert_eq. Qed.












Lemma item_set_other (key : String.string) (k : pystr) (v : pyval)
    (item : gmap pystr pyval) :
  str_eqb (py key) k = false → item_set key v item !! k = item !! k.
Proof.
  intros H. apply lookup_insert_ne. intros E.
  apply bool_decide_eq_false in H. done.
Qed.






Lemma fallback_poster_ok (response : film_response) (item : gmap pystr pyval) :
  same_except [py "poster_url"] item (fallback_poster response item).
Proof.
  unfold fallback_poster. destruct (negb _); [|apply same_except_refl].
  apply item_set_except; [done|apply same_except_refl].
Qed.



End Extractor.

(** ** The crawl controller: one listing page *)

Section Controller.

Context {RNG : Type}.
Variable py_shuffle : RNG → list pystr → list pystr * RNG.
Variable cfg : config.

Local Abbreviation state := (@state RNG).
Local Abbreviation parse_list_page := (parse_list_page py_shuffle cfg).
Local Abbreviation shuffle_if := (shuffle_if py_shuffle cfg).

(** Shuffling touches the generator only. *)
Lemma shuffle_if_state (self : state) (l : list pystr) :
  let self' := (shuffle_if self l).2 in
  seen_film_urls self' = seen_film_urls self ∧
  seen_list_pages self' = seen_list_pages self ∧
  pages_crawled self' = pages_crawled self ∧
  items_scheduled self' = items_scheduled self.
Proof.
  unfold Spider.shuffle_if. destruct (shuffle cfg); [|done].
  destruct (py_shuffle _ _); done.
Qed.

(** What the scheduling loop does to the spider. *)
Lemma schedule_films_state (urls : list pystr) (self : state) :
  let self' := (schedule_films cfg self urls).1 in
  seen_list_pages self' = seen_list_pages self ∧
  pages_crawled self' = pages_crawled self ∧
  rng self' = rng self ∧
  (items_scheduled self ≤ items_scheduled self')%Z ∧
  ((items_scheduled self ≤ max_items cfg)%Z →
   (items_scheduled self' ≤ max_items cfg)%Z) ∧
  seen_film_urls self ⊆ seen_film_urls self'.
Proof.
  revert self. induction urls as [|url urls IH]; intros self; simpl.
  - done.
  - case_match; [done|]. case_decide; [apply IH|].
    destruct (schedule_films cfg _ urls) as [self'' reqs] eqn:E.
    specialize (IH (State ({[url]} ∪ seen_film_urls self) (seen_list_pages self)
                          (pages_crawled self) (items_scheduled self + 1) (rng self))).
    rewrite E in IH. simpl in *.
    destruct IH as (? & ? & ? & ? & ? & ?).
    repeat split; try done; [lia | lia | set_solver].
Qed.

(** What one listing page does to the counters. *)
Lemma parse_list_page_counters (self : state) (response : list_response) :
  let self' := after (parse_list_page self response) in
  (items_scheduled self ≤ items_scheduled self')%Z ∧
  (pages_crawled self ≤ pages_crawled self')%Z ∧
  ((items_scheduled self ≤ max_items cfg)%Z →
   (items_scheduled self' ≤ max_items cfg)%Z).
Proof.
  unfold Spider.parse_list_page.
  case_decide; [done|]. simpl.
  case_match; [simpl; lia|].
  match goal with |- context [shuffle_if ?s ?l] =>
    pose proof (shuffle_if_state s l) as Hs; destruct (shuffle_if s l) as [fu s1] end.
  simpl in Hs. destruct Hs as (_ & _ & Hp & Hi).
  destruct (sample cfg fu) as [fu'|e]; simpl; [|lia].
  pose proof (schedule_films_state fu' s1) as Hf.
  destruct (schedule_films cfg s1 fu') as [s2 films]. simpl in Hf.
  destruct Hf as (_ & Hp2 & _ & Hi2 & Hb & _).
  case_match; simpl; [lia|].
  match goal with |- context [shuffle_if ?s ?l] =>
    pose proof (shuffle_if_state s l) as Hs; destruct (shuffle_if s l) as [nl s3] end.
  simpl in *. lia.
Qed.

(** The scheduling loop yields film requests only. *)
Lemma schedule_films_no_list (urls : list pystr) (self : state) :
  list_requests (schedule_films cfg self urls).2 = [].
Proof.
  revert self. induction urls as [|url urls IH]; intros self; simpl; [done|].
  case_match; [done|]. case_decide; [apply IH|].
  specialize (IH (State ({[url]} ∪ seen_film_urls self) (seen_list_pages self)
                        (pages_crawled self) (items_scheduled self + 1) (rng self))).
  destruct (schedule_films cfg _ urls) as [self'' reqs]. simpl in *. done.
Qed.

(** The pagination loop yields listing requests, one per link at most,
    for links that are not in [seen_list_pages]. *)
Lemma follow_next_spec (self : state) (links : list pystr) :
  let reqs := follow_next cfg self links in
  film_requests reqs = [] ∧
  length (list_requests reqs) ≤ length links ∧
  (∀ u, u ∈ list_requests reqs → u ∈ links ∧ u ∉ seen_list_pages self) ∧
  ((max_pages cfg ≤ pages_crawled self)%Z → reqs = []).
Proof.
  induction links as [|u us (IH1 & IH2 & IH3 & IH4)]; simpl.
  - split_and!; [done|done|set_solver|done].
  - destruct (max_pages cfg <=? pages_crawled self)%Z eqn:E; simpl.
    + split_and!; [done|lia|set_solver|done].
    + apply Z.leb_gt in E.
      case_decide; simpl; (split_and!; [done|lia| |lia]).
      * intros v Hv. destruct (IH3 v Hv). set_solver.
      * intros v [->|Hv]%elem_of_cons; [set_solver|].
        destruct (IH3 v Hv). set_solver.
Qed.

Lemma list_requests_app (l1 l2 : list request) :
  list_requests (l1 ++ l2) = list_requests l1 ++ list_requests l2.
Proof. apply omap_app. Qed.

Lemma film_requests_app (l1 l2 : list request) :
  film_requests (l1 ++ l2) = film_requests l1 ++ film_requests l2.
Proof. apply omap_app. Qed.

(** The listing requests of one page, and the spider after the page. *)
Lemma parse_list_page_next (self : state) (response : list_response) :
  let o := parse_list_page self response in
  ((max_pages cfg ≤ pages_crawled (after o))%Z → list_requests (yielded o) = []) ∧
  length (list_requests (yielded o)) ≤ 8 ∧
  (∀ u, u ∈ list_requests (yielded o) → u ∉ seen_list_pages (after o)) ∧
  seen_list_pages self ⊆ seen_list_pages (after o).
Proof.
  unfold Spider.parse_list_page.
  case_decide; [simpl; split_and!; [done|lia|set_solver|done]|]. simpl.
  case_match; [simpl; split_and!; [done|lia|set_solver|set_solver]|].
  match goal with |- context [shuffle_if ?s ?l] =>
    pose proof (shuffle_if_state s l) as Hs; destruct (shuffle_if s l) as [fu s1] end.
  simpl in Hs. destruct Hs as (_ & Hl1 & Hp1 & _).
  destruct (sample cfg fu) as [fu'|e]; simpl;
    [|split_and!; [done|lia|set_solver|set_solver]].
  pose proof (schedule_films_state fu' s1) as Hf.
  pose proof (schedule_films_no_list fu' s1) as Hn.
  destruct (schedule_films cfg s1 fu') as [s2 films]. simpl in Hf, Hn.
  destruct Hf as (Hl2 & Hp2 & _).
  destruct (max_pages cfg <=? pages_crawled s2)%Z eqn:E; simpl.
  - split_and!; [done|rewrite Hn; simpl; lia|rewrite Hn; set_solver|set_solver].
  - apply Z.leb_gt in E.
    match goal with |- context [shuffle_if ?s ?l] =>
      pose proof (shuffle_if_state s l) as Hs; destruct (shuffle_if s l) as [nl s3] end.
    simpl in Hs. destruct Hs as (_ & Hl3 & Hp3 & _). simpl.
    rewrite list_requests_app, Hn. simpl.
    pose proof (follow_next_spec s3 (take 8 nl)) as (_ & Hlen & Hin & _).
    split_and!.
    + lia.
    + rewrite length_take in Hlen. lia.
    + intros u Hu. by destruct (Hin u Hu).
    + set_solver.
Qed.

(** C2. A listing page processed when [pages_crawled] has reached
    [max_pages] (before the page, or with the page itself) dispatches no
    fetch of a further listing page; any listing page dispatches at most
    8 of them, and none for a URL that is in [seen_list_pages] when it
    is dispatched. *)
Theorem next_page_fan_out (self : state) (response : list_response) :
  let o := parse_list_page self response in
  ((max_pages cfg ≤ pages_crawled (after o))%Z → list_requests (yielded o) = []) ∧
  ((max_pages cfg ≤ pages_crawled self)%Z → list_requests (yielded o) = []) ∧
  length (list_requests (yielded o)) ≤ 8 ∧
  (∀ u, u ∈ list_requests (yielded o) →
        (u ∉ seen_list_pages (after o)) ∧ (u ∉ seen_list_pages self)).
Proof.
  intros o.
  pose proof (parse_list_page_next self response) as (Ha & Hb & Hc & Hd).
  pose proof (parse_list_page_counters self response) as (_ & Hp & _).
  fold o in Ha, Hb, Hc, Hd, Hp.
  split_and!; [done| |done|].
  - intros H. apply Ha. lia.
  - intros u Hu. specialize (Hc u Hu). set_solver.
Qed.

(** C6. A listing page whose URL is in [seen_list_pages] is a no-op: no
    request is yielded and the spider is left as it was; and once a page
    has been processed, processing a response with the same URL again
    changes nothing. *)
Theorem seen_list_page_is_noop (self : state) (response again : list_response) :
  (list_url response ∈ seen_list_pages self →
   parse_list_page self response = Outcome self [] None) ∧
  (list_url again = list_url response →
   let self' := after (parse_list_page self response) in
   parse_list_page self' again = Outcome self' [] None).
Proof.
  assert (Hnoop : ∀ (s : state) r, list_url r ∈ seen_list_pages s →
                  parse_list_page s r = Outcome s [] None).
  { intros s r Hin. unfold Spider.parse_list_page. by rewrite decide_True. }
  split; [apply Hnoop|].
  intros Heq self'. apply Hnoop. rewrite Heq. subst self'.
  unfold Spider.parse_list_page.
  case_decide; [done|]. simpl.
  case_match; [simpl; set_solver|].
  match goal with |- context [shuffle_if ?s ?l] =>
    pose proof (shuffle_if_state s l) as Hs; destruct (shuffle_if s l) as [fu s1] end.
  simpl in Hs. destruct Hs as (_ & Hl1 & _).
  destruct (sample cfg fu) as [fu'|e]; simpl; [|set_solver].
  pose proof (schedule_films_state fu' s1) as Hf.
  destruct (schedule_films cfg s1 fu') as [s2 films]. simpl in Hf.
  destruct Hf as (Hl2 & _).
  case_match; simpl; [set_solver|].
  match goal with |- context [shuffle_if ?s ?l] =>
    pose proof (shuffle_if_state s l) as Hs; destruct (shuffle_if s l) as [nl s3] end.
  simpl in Hs. destruct Hs as (_ & Hl3 & _). simpl. set_solver.
Qed.




Lemma sample_subset (l l' : list pystr) : sample cfg l = Ok l' → l' ⊆ l.
Proof.
  unfold sample. case_match.
  - destruct (sample_size _ _) as [k|]; simpl; [|done].
    intros [= <-] u Hu. eapply elem_of_sublist; [done|apply sublist_take].
  - by intros [= <-].
Qed.

Lemma schedule_films_seen (urls : list pystr) (self : state) :
  seen_film_urls (schedule_films cfg self urls).1
  ⊆ list_to_set urls ∪ seen_film_urls self.
Proof.
  revert self. induction urls as [|url urls IH]; intros self; simpl; [set_solver|].
  case_match; [set_solver|]. case_decide; [specialize (IH self); set_solver|].
  specialize (IH (State ({[url]} ∪ seen_film_urls self) (seen_list_pages self)
                        (pages_crawled self) (items_scheduled self + 1) (rng self))).
  destruct (schedule_films cfg _ urls) as [self'' reqs]. simpl in *. set_solver.
Qed.


Lemma follow_next_no_film (self : state) (links : list pystr) :
  film_requests (follow_next cfg self links) = [].
Proof.
  induction links as [|u us IH]; simpl; [done|].
  case_match; [done|]. by case_decide.
Qed.



Section Shuffled.

(** [random.shuffle] permutes. *)
Hypothesis py_shuffle_perm : ∀ g l, (py_shuffle g l).1 ≡ₚ l.

Lemma shuffle_if_perm (self : state) (l : list pystr) :
  (shuffle_if self l).1 ≡ₚ l.
Proof.
  unfold Spider.shuffle_if. destruct (shuffle cfg); [|done].
  pose proof (py_shuffle_perm (rng self) l). by destruct (py_shuffle _ _).
Qed.

Lemma parse_list_page_seen (self : state) (response : list_response) :
  let self' := after (parse_list_page self response) in
  seen_list_pages self' ⊆ {[list_url response]} ∪ seen_list_pages self ∧
  seen_film_urls self' ⊆ list_to_set (film_links response) ∪ seen_film_urls self.
Proof.
  unfold Spider.parse_list_page.
  case_decide; [simpl; set_solver|]. simpl.
  case_match; [simpl; set_solver|].
  match goal with |- context [shuffle_if ?s ?l] =>
    pose proof (shuffle_if_state s l) as Hs;
    pose proof (shuffle_if_perm s l) as Hperm;
    destruct (shuffle_if s l) as [fu s1] end.
  simpl in Hs, Hperm. destruct Hs as (Hf1 & Hl1 & _).
  destruct (sample cfg fu) as [fu'|e] eqn:Hsample; simpl; [|set_solver].
  apply sample_subset in Hsample.
  pose proof (schedule_films_state fu' s1) as Hst.
  pose proof (schedule_films_seen fu' s1) as Hseen.
  destruct (schedule_films cfg s1 fu') as [s2 films]. simpl in Hst, Hseen.
  destruct Hst as (Hl2 & _).
  assert (seen_film_urls s2 ⊆ list_to_set (film_links response) ∪ seen_film_urls self).
  { intros u Hu. apply Hseen in Hu. rewrite Hf1 in Hu.
    apply elem_of_union in Hu as [Hu|Hu]; [|set_solver].
    apply elem_of_union_l, elem_of_list_to_set.
    rewrite <- Hperm. apply Hsample. by apply elem_of_list_to_set in Hu. }
  case_match; simpl; [set_solver|].
  match goal with |- context [shuffle_if ?s ?l] =>
    pose proof (shuffle_if_state s l) as Hs; destruct (shuffle_if s l) as [nl s3] end.
  simpl in Hs. destruct Hs as (Hf3 & Hl3 & _). simpl. set_solver.
Qed.

End Shuffled.

End Controller.

(** ** The crawl controller: runs *)

Section Runs.

Context {RNG : Type}.
Variable py_shuffle : RNG → list pystr → list pystr * RNG.
Variable json_loads : pystr → res pyval.
Variable float_of_str : pystr → res float.
Variable py_repr : pyval → pystr.
Variable cfg : config.

Local Abbreviation state := (@state RNG).
Local Abbreviation world := (@world RNG).
Local Abbreviation parse_list_page := (parse_list_page py_shuffle cfg).
Local Abbreviation shuffle_if := (shuffle_if py_shuffle cfg).
Local Abbreviation parse_film := (parse_film json_loads float_of_str py_repr).
Local Abbreviation step := (step py_shuffle json_loads float_of_str py_repr cfg).
Local Abbreviation run := (run py_shuffle json_loads float_of_str py_repr cfg).

(** What one response does to the counters. *)
Lemma step_counters (w : world) (ev : event) :
  let w' := step w ev in
  (items_scheduled (spider w) ≤ items_scheduled (spider w'))%Z ∧
  (pages_crawled (spider w) ≤ pages_crawled (spider w'))%Z ∧
  ((items_scheduled (spider w) ≤ max_items cfg)%Z →
   (items_scheduled (spider w') ≤ max_items cfg)%Z).
Proof.
  destruct ev as [u response|u response]; simpl; case_decide; simpl; try lia.
  apply parse_list_page_counters.
Qed.

Lemma init_world_counters (g : RNG) :
  items_scheduled (spider (init_world py_shuffle cfg g)) = 0%Z ∧
  pages_crawled (spider (init_world py_shuffle cfg g)) = 0%Z.
Proof.
  unfold init_world.
  pose proof (shuffle_if_state py_shuffle cfg (init_state g) (seed_urls cfg)) as H.
  destruct (shuffle_if _ _) as [urls self]. simpl in *. tauto.
Qed.

Lemma run_snoc (g : RNG) (evs : list event) (ev : event) :
  run g (evs ++ [ev]) = step (run g evs) ev.
Proof. unfold Spider.run. by rewrite foldl_app. Qed.

Lemma run_items_bounded (g : RNG) (evs : list event) :
  (0 ≤ max_items cfg)%Z →
  (items_scheduled (spider (run g evs)) ≤ max_items cfg)%Z.
Proof.
  intros Hmax. induction evs as [|ev evs IH] using rev_ind.
  - unfold Spider.run. simpl. by rewrite (proj1 (init_world_counters g)).
  - rewrite run_snoc. by apply step_counters.
Qed.

(** C1. In a run with [max_items >= 0], whatever responses are
    processed, [items_scheduled] never exceeds [max_items], and a
    processing step leaves [items_scheduled] and [pages_crawled] equal
    or larger, never smaller. *)
Theorem counters_bounded_and_monotone (g : RNG) (evs : list event) (ev : event) :
  (0 ≤ max_items cfg)%Z →
  let w := run g evs in
  let w' := step w ev in
  (items_scheduled (spider w) ≤ max_items cfg)%Z ∧
  (items_scheduled (spider w') ≤ max_items cfg)%Z ∧
  (items_scheduled (spider w) ≤ items_scheduled (spider w'))%Z ∧
  (pages_crawled (spider w) ≤ pages_crawled (spider w'))%Z.
Proof.
  intros Hmax w w'.
  pose proof (run_items_bounded g evs Hmax) as Hw.
  pose proof (step_counters w ev) as (Hi & Hp & Hb).
  subst w w'. auto.
Qed.

Lemma visited_list_urls_app (evs1 evs2 : list event) :
  visited_list_urls (evs1 ++ evs2) = visited_list_urls evs1 ∪ visited_list_urls evs2.
Proof.
  induction evs1 as [|[u r|u r] evs1 IH]; simpl; [set_solver| |done].
  rewrite IH. set_solver.
Qed.

Lemma offered_film_links_app (evs1 evs2 : list event) :
  offered_film_links (evs1 ++ evs2) = offered_film_links evs1 ∪ offered_film_links evs2.
Proof.
  induction evs1 as [|[u r|u r] evs1 IH]; simpl; [set_solver| |done].
  rewrite IH. set_solver.
Qed.

Lemma init_world_seen (g : RNG) :
  seen_list_pages (spider (init_world py_shuffle cfg g)) = ∅ ∧
  seen_film_urls (spider (init_world py_shuffle cfg g)) = ∅.
Proof.
  unfold init_world.
  pose proof (shuffle_if_state py_shuffle cfg (init_state g) (seed_urls cfg)) as H.
  destruct (shuffle_if _ _) as [urls self]. simpl in *. tauto.
Qed.

Section ShuffledRuns.

(** [random.shuffle] permutes. *)
Hypothesis py_shuffle_perm : ∀ g l, (py_shuffle g l).1 ≡ₚ l.

(** C9, amended. Both sets start empty; [seen_list_pages] only receives
    URLs of listing responses that were processed and [seen_film_urls]
    only film links found on them, so the two sets are disjoint in every
    run where no URL is both. *)
Theorem seen_sets_disjoint_if_urls_are (g : RNG) (evs : list event) :
  let w := run g evs in
  seen_list_pages (spider w) ⊆ visited_list_urls evs ∧
  seen_film_urls (spider w) ⊆ offered_film_links evs ∧
  (visited_list_urls evs ## offered_film_links evs →
   seen_list_pages (spider w) ## seen_film_urls (spider w)).
Proof.
  intros w.
  assert (H : seen_list_pages (spider w) ⊆ visited_list_urls evs ∧
              seen_film_urls (spider w) ⊆ offered_film_links evs).
  { subst w. induction evs as [|ev evs [IH1 IH2]] using rev_ind.
    - unfold Spider.run. simpl.
      destruct (init_world_seen g) as [-> ->]. done.
    - rewrite run_snoc, visited_list_urls_app, offered_film_links_app.
      destruct ev as [u r|u r]; simpl; case_decide; simpl; try set_solver.
      pose proof (parse_list_page_seen py_shuffle cfg py_shuffle_perm (spider (run g evs)) r) as [H1 H2].
      simpl in H1, H2. set_solver. }
  destruct H as [H1 H2]. split_and!; [done|done|set_solver].
Qed.

End ShuffledRuns.



Lemma film_requests_seeds (urls : list pystr) :
  film_requests (map ListRequest urls) = [].
Proof. induction urls; simpl; done. Qed.

Lemma init_world_pending (g : RNG) :
  film_requests (pending (init_world py_shuffle cfg g)) = [] ∧
  film_requests (dispatched (init_world py_shuffle cfg g)) = [] ∧
  emitted (init_world py_shuffle cfg g) = [].
Proof.
  unfold init_world. destruct (shuffle_if _ _) as [urls self]. simpl.
  by rewrite film_requests_seeds.
Qed.





End Runs.

(** ** The properties on examples *)



(** A title that ends with its year. *)
Lemma clean_title_witness :
  py "Dune (2021)" ≠ [] ∧
  clean_title_and_year (PStr (py "Dune (2021)")) = Ok (PStr (py "Dune"), PInt 2021).
Proof.
  split; [done|].
  apply (proj1 (proj2 (clean_title_and_year_spec (PStr (py "Dune (2021)"))))
           (py "Dune (2021)")); done.
Defined.

(** [- Series] is not a suffix the code strips; [- Série] is. *)
Lemma series_suffix_is_kept :
  clean_title_and_year (PStr (py "Lost - Series"))
  = Ok (PStr (py "Lost - Series"), PNone) ∧
  strip_trailing (is_decoration (py "Series")) (py "Lost - Series") = py "Lost" ∧
  clean_title_and_year (PStr (py "Lost - Série")) = Ok (PStr (py "Lost"), PNone).
Proof. split_and!; reflexivity. Qed.

(** A title of three spaces is cleaned to the empty string. *)
Lemma empty_title_witness :
  (py "   " ≠ [] ∧ forallb isspace (py "   ") = true) ∧
  clean_title_and_year (PStr (py "   ")) = Ok (PStr [], PNone).
Proof.
  split; [done|].
  apply (proj1 (proj2 (proj2 (empty_title_is_empty_string (PStr (py "   ")))))
           (py "   ")); done.
Defined.


(** The shuffle of the example runtime permutes. *)
Lemma counting_shuffle_perm (g : nat) (l : list pystr) : (counting_shuffle g l).1 ≡ₚ l.
Proof. simpl. symmetry. apply Permutation_rev. Qed.

(** The counters along a run with the default settings. *)
Lemma counters_witness :
  (0 ≤ max_items default_config)%Z ∧
  let w := run counting_shuffle no_json no_float no_repr default_config 0 two_films in
  let w' := step counting_shuffle no_json no_float no_repr default_config w
              (ListPage top_url (ListResponse top_url [alien_url] [])) in
  (items_scheduled (spider w) ≤ max_items default_config)%Z ∧
  (items_scheduled (spider w') ≤ max_items default_config)%Z ∧
  (items_scheduled (spider w) ≤ items_scheduled (spider w'))%Z ∧
  (pages_crawled (spider w) ≤ pages_crawled (spider w'))%Z.
Proof.
  split; [done|].
  apply (counters_bounded_and_monotone counting_shuffle no_json no_float no_repr
           default_config 0 two_films). done.
Defined.

(** The twelfth listing page of a run with the default settings follows
    no pagination link. *)
Lemma fan_out_witness :
  let o := parse_list_page counting_shuffle default_config last_page_state
             (ListResponse top_url [alien_url] [top_gun_url]) in
  (max_pages default_config ≤ pages_crawled (after o))%Z ∧
  list_requests (yielded o) = [].
Proof.
  intros o. assert (H : (max_pages default_config ≤ pages_crawled (after o))%Z)
    by (vm_compute; discriminate).
  split; [exact H|].
  exact (proj1 (next_page_fan_out counting_shuffle default_config last_page_state
                  (ListResponse top_url [alien_url] [top_gun_url])) H).
Defined.

(** A listing page that was seen. *)
Lemma noop_witness :
  list_url (ListResponse top_url [alien_url] [top_gun_url]) ∈ seen_list_pages seen_top_state ∧
  parse_list_page counting_shuffle default_config seen_top_state
    (ListResponse top_url [alien_url] [top_gun_url])
  = Outcome seen_top_state [] None.
Proof.
  assert (H : list_url (ListResponse top_url [alien_url] [top_gun_url])
              ∈ seen_list_pages seen_top_state) by (simpl; set_solver).
  split; [exact H|].
  exact (proj1 (seen_list_page_is_noop counting_shuffle default_config seen_top_state
                  (ListResponse top_url [alien_url] [top_gun_url])
                  (ListResponse top_url [] [])) H).
Defined.



(** A run whose listing URLs and film links are apart. *)
Lemma disjoint_witness :
  (∀ g l, (counting_shuffle g l).1 ≡ₚ l) ∧
  visited_list_urls two_films ## offered_film_links two_films ∧
  let w := run counting_shuffle no_json no_float no_repr quiet_config 0 two_films in
  seen_list_pages (spider w) ## seen_film_urls (spider w).
Proof.
  assert (H : visited_list_urls two_films ## offered_film_links two_films).
  { apply (bool_decide_unpack (visited_list_urls two_films ## offered_film_links two_films)).
    vm_compute. reflexivity. }
  split; [exact counting_shuffle_perm|]. split; [exact H|].
  exact (proj2 (proj2 (seen_sets_disjoint_if_urls_are counting_shuffle no_json no_float
                         no_repr quiet_config counting_shuffle_perm 0 two_films)) H).
Defined.

(** A film link that is also taken for a pagination link is scheduled
    as a film and followed as a listing page: its URL ends in both
    sets. *)
Lemma film_url_in_both_sets :
  is_film_path top_gun_path = true ∧ is_next_link top_gun_path = true ∧
  let w := run counting_shuffle no_json no_float no_repr quiet_config 0 page_of_top_gun in
  top_gun_url ∈ seen_list_pages (spider w) ∧
  top_gun_url ∈ seen_film_urls (spider w) ∧
  ¬ (seen_list_pages (spider w) ## seen_film_urls (spider w)).
Proof.
  split; [reflexivity|]. split; [reflexivity|].
  intros w.
  assert (H1 : top_gun_url ∈ seen_list_pages (spider w)).
  { apply (bool_decide_unpack (top_gun_url ∈ seen_list_pages (spider w))).
    vm_compute. reflexivity. }
  assert (H2 : top_gun_url ∈ seen_film_urls (spider w)).
  { apply (bool_decide_unpack (top_gun_url ∈ seen_film_urls (spider w))).
    vm_compute. reflexivity. }
  split_and!; [done|done|]. intros Hd. by apply (Hd top_gun_url).
Qed.



(** * Further properties *)

(** ** Strings *)

Section MoreStrings.

Local Open Scope N_scope.

Lemma lstrip_head (s : pystr) : head_in false Space (lstrip s) = false.
Proof.
  induction s as [|c s IH]; [done|]. simpl. destruct (isspace c) eqn:E; [done|].
  simpl. exact E.
Qed.

Lemma lstrip_snoc (s : pystr) (c : char) :
  isspace c = false → lstrip (s ++ [c]) = lstrip s ++ [c].
Proof.
  intros Hc. induction s as [|x s IH]; simpl; [by rewrite Hc|].
  by destruct (isspace x).
Qed.

Lemma strip_is_trimmed (s : pystr) : trimmed (strip s).
Proof.
  unfold trimmed, strip, rstrip. split.
  - destruct (lstrip s) as [|c t] eqn:E; [done|].
    pose proof (lstrip_head_no_space _ _ _ E) as Hc.
    simpl rev. rewrite lstrip_snoc by done. rewrite rev_app_distr. simpl. exact Hc.
  - rewrite rev_involutive. apply lstrip_head.
Qed.

Lemma strip_idem (s : pystr) : strip (strip s) = strip s.
Proof. apply strip_trimmed, strip_is_trimmed. Qed.

Lemma decimal_value_4 (d1 d2 d3 d4 : char) :
  forallb isdecimal [d1; d2; d3; d4] = true →
  (0 ≤ decimal_value [d1; d2; d3; d4] ≤ 9999)%Z.
Proof.
  cbn [forallb]. rewrite !andb_true_iff. unfold isdecimal, to_decimal.
  intros (H1 & H2 & H3 & H4 & _). unfold decimal_value, to_decimal. cbn [fold_left].
  destruct (decimal_in decimal_zeros d1) as [n1|] eqn:E1; [|done].
  destruct (decimal_in decimal_zeros d2) as [n2|] eqn:E2; [|done].
  destruct (decimal_in decimal_zeros d3) as [n3|] eqn:E3; [|done].
  destruct (decimal_in decimal_zeros d4) as [n4|] eqn:E4; [|done].
  apply decimal_in_inv in E1 as (? & _ & _ & ?), E2 as (? & _ & _ & ?),
    E3 as (? & _ & _ & ?), E4 as (? & _ & _ & ?).
  cbn [default]. unfold id. lia.
Qed.

Lemma extract_year_str (d : pystr) :
  extract_year_from_date (PStr d) = Ok (int_or_none (leading_year d)).
Proof.
  unfold extract_year_from_date, leading_year.
  destruct d as [|c d]; [done|]. cbn [truthy is_str negb orb].
  rewrite date_year_re_spec.
  destruct (strip (c :: d)) as [|d1 [|d2 [|d3 [|d4 t]]]]; try done.
  destruct (forallb isdecimal [d1; d2; d3; d4]) eqn:E; [|done].
  cbn [groups group Nat.eqb py_int].
  by rewrite (int_of_digits [d1; d2; d3; d4]) by done.
Qed.

(** X1. [extract_year_from_date] returns the number that the first four
    characters of the date spell when, the whitespace around the date
    stripped, they are decimal digits, and [None] for every other value;
    it never raises, and a year it returns lies between 0 and 9999. *)
Theorem extract_year_from_date_spec (date_str : pyval) :
  extract_year_from_date date_str
  = Ok match date_str with
       | PStr d => int_or_none (leading_year d)
       | _ => PNone
       end ∧
  (∀ y, extract_year_from_date date_str = Ok (PInt y) → (0 ≤ y ≤ 9999)%Z) ∧
  extract_year_from_date (PStr (py "2019-03-01")) = Ok (PInt 2019) ∧
  extract_year_from_date (PStr (py " 1999")) = Ok (PInt 1999) ∧
  extract_year_from_date (PStr (py "not-a-date")) = Ok PNone ∧
  extract_year_from_date (PStr (py "999-01-01")) = Ok PNone.
Proof.
  assert (H : extract_year_from_date date_str
              = Ok match date_str with
                   | PStr d => int_or_none (leading_year d)
                   | _ => PNone
                   end).
  { destruct date_str as [|b|z|f|d|l|kv]; try apply extract_year_str;
      unfold extract_year_from_date; cbn [is_str negb]; by rewrite ?orb_true_r. }
  split; [exact H|]. split; [|by vm_compute].
  intros y. rewrite H. intros [= Hy].
  destruct date_str as [|b|z|f|d|l|kv]; try done.
  unfold leading_year in Hy.
  destruct (strip d) as [|d1 [|d2 [|d3 [|d4 t]]]]; try done.
  destruct (forallb isdecimal [d1; d2; d3; d4]) eqn:E; [|done].
  injection Hy as <-. by apply decimal_value_4.
Qed.

End MoreStrings.

(** ** The JSON-LD objects of a page *)

Section JsonLd.

Lemma pyval_nested_ind (P : pyval → Prop) :
  P PNone → (∀ b, P (PBool b)) → (∀ z, P (PInt z)) → (∀ f, P (PFloat f)) →
  (∀ s, P (PStr s)) →
  (∀ l, Forall P l → P (PList l)) →
  (∀ d, Forall (λ kv, P kv.2) d → P (PDict d)) →
  ∀ v, P v.
Proof.
  intros HN HB HI HF HS HL HD. fix IH 1.
  intros [|b|z|f|s|l|d];
    [exact HN|exact (HB b)|exact (HI z)|exact (HF f)|exact (HS s)| |].
  - apply HL. induction l as [|x l IHl]; constructor; [apply IH|exact IHl].
  - apply HD. induction d as [|[k x] d IHd]; constructor; [apply IH|exact IHd].
Qed.

(** The [dict] case as the source has it: [if "@graph" in data]. *)
Lemma iter_jsonld_dict (d : list (pystr * pyval)) :
  iter_jsonld_objects (PDict d)
  = if dict_has d (py "@graph")
    then iter_jsonld_objects (dict_get d (py "@graph"))
    else [PDict d].
Proof.
  cbn [iter_jsonld_objects]. generalize (PDict d) as data. intros data.
  induction d as [|[k v] d IH]; [done|].
  cbn [dict_has dict_get]. destruct (str_eqb (py "@graph") k); [done|]. exact IH.
Qed.

Lemma dict_get_Forall (P : pyval → Prop) (d : list (pystr * pyval)) (k : pystr) :
  Forall (λ kv, P kv.2) d → dict_has d k = true → P (dict_get d k).
Proof.
  induction 1 as [|[k' v] d Hv _ IH]; [done|]. cbn [dict_has dict_get].
  destruct (str_eqb k k'); [done|]. exact IH.
Qed.

Lemma iter_jsonld_plain (data obj : pyval) :
  obj ∈ iter_jsonld_objects data → plain_object obj.
Proof.
  revert obj. induction data as [|b|z|f|s|l IH|d IH] using pyval_nested_ind;
    intros obj; try (cbn [iter_jsonld_objects]; by intros ?%elem_of_nil).
  - cbn [iter_jsonld_objects]. rewrite list_elem_of_In, in_flat_map.
    intros (x & Hx & Hobj). rewrite Forall_forall in IH.
    apply (IH x); by apply list_elem_of_In.
  - rewrite iter_jsonld_dict. destruct (dict_has d (py "@graph")) eqn:E.
    + by apply (dict_get_Forall (λ v, ∀ obj, obj ∈ iter_jsonld_objects v → plain_object obj)).
    + intros ->%list_elem_of_singleton. by exists d.
Qed.

Lemma iter_jsonld_plain_list (objs : list pyval) :
  Forall plain_object objs → iter_jsonld_objects (PList objs) = objs.
Proof.
  cbn [iter_jsonld_objects].
  induction 1 as [|obj objs (d & -> & Hd) _ IH]; [done|].
  cbn [flat_map]. rewrite IH. fold (iter_jsonld_objects (PDict d)).
  by rewrite iter_jsonld_dict, Hd.
Qed.

(** X2. [iter_jsonld_objects] yields only [dict]s that have no key
    [@graph]: the test of line 265 never fails, and no [@graph] wrapper
    is ever taken for an object. *)
Theorem iter_jsonld_objects_yields_plain_dicts (data : pyval) :
  Forall plain_object (iter_jsonld_objects data).
Proof. apply Forall_forall. intros obj. apply iter_jsonld_plain. Qed.

(** X3. What [iter_jsonld_objects] flattens: a [dict] with the key
    [@graph] stands for the value of that key, whatever its other keys;
    a list of [dict]s without the key is yielded as it is, in order;
    and flattening what was yielded yields the same. *)
Theorem iter_jsonld_objects_flattens (data : pyval) :
  (∀ d, data = PDict d → dict_has d (py "@graph") = true →
        iter_jsonld_objects data = iter_jsonld_objects (get d "@graph")) ∧
  (∀ objs, data = PList objs → Forall plain_object objs →
           iter_jsonld_objects data = objs) ∧
  iter_jsonld_objects (PList (iter_jsonld_objects data)) = iter_jsonld_objects data.
Proof.
  split_and!.
  - intros d -> Hd. by rewrite iter_jsonld_dict, Hd.
  - intros objs ->. apply iter_jsonld_plain_list.
  - apply iter_jsonld_plain_list, Forall_forall. intros obj. apply iter_jsonld_plain.
Qed.

End JsonLd.

(** ** The JSON-LD block of a film *)

Section MovieBlock.

Variable json_loads : pystr → res pyval.

Local Abbreviation scan_blocks := (scan_blocks json_loads).

Lemma is_movie_truthy (obj : pyval) : is_movie obj = true → truthy obj = true.
Proof. destruct obj as [| | | | | |[|kv d]]; done. Qed.

Lemma find_is_movie (l : list pyval) (obj : pyval) :
  find is_movie l = Some obj → is_movie obj = true.
Proof. intros H. by apply find_some in H as [_ H]. Qed.

Lemma scan_blocks_is_movie (movie : pyval) (blocks : list pystr) :
  movie = PNone ∨ is_movie movie = true →
  scan_blocks movie blocks = PNone ∨ is_movie (scan_blocks movie blocks) = true.
Proof.
  revert movie. induction blocks as [|raw blocks IH]; intros movie Hm; [done|].
  cbn [Spider.scan_blocks]. destruct (strip raw) as [|c t]; [by apply IH|].
  destruct (json_loads (c :: t)) as [data|e]; [|by apply IH].
  destruct (find is_movie (iter_jsonld_objects data)) as [obj|] eqn:E.
  - apply find_is_movie in E. rewrite (is_movie_truthy _ E). by right.
  - destruct (truthy movie); [done|]. by apply IH.
Qed.

(** A block that gives no film: blank, not JSON, or JSON without an
    object of type [Movie] or [Film]. *)
Lemma scan_blocks_skip (raw : pystr) (blocks : list pystr) :
  strip raw = [] ∨ (∃ e, json_loads (strip raw) = Raise e)
  ∨ (∃ data, json_loads (strip raw) = Ok data
             ∧ find is_movie (iter_jsonld_objects data) = None) →
  scan_blocks PNone (raw :: blocks) = scan_blocks PNone blocks.
Proof.
  cbn [Spider.scan_blocks]. destruct (strip raw) as [|c t]; [done|].
  intros [?|[[e ->]|(data & -> & ->)]]; done.
Qed.

(** X4. The JSON-LD object [parse_film] reads its fields from is, when
    there is one, a [dict] whose [@type] is [Movie] or [Film] or a list
    with one of them; no other object of a page is ever used. *)
Theorem movie_is_of_type_movie (blocks : list pystr) :
  scan_blocks PNone blocks = PNone ∨
  (is_movie (scan_blocks PNone blocks) = true ∧
   ∃ d, scan_blocks PNone blocks = PDict d ∧ d ≠ [] ∧
        match get d "@type" with
        | PList t => ∃ x, x ∈ t ∧ (x = PStr (py "Movie") ∨ x = PStr (py "Film"))
        | t => t = PStr (py "Movie") ∨ t = PStr (py "Film")
        end).
Proof.
  destruct (scan_blocks_is_movie PNone blocks) as [H|H]; [by left|by left|].
  right. split; [done|].
  assert (Hmf : ∀ x, movie_or_film x = true → x = PStr (py "Movie") ∨ x = PStr (py "Film")).
  { intros x. unfold movie_or_film, eq_str, str_eqb. destruct x; try done.
    rewrite orb_true_iff, !bool_decide_eq_true. intros [->| ->]; auto. }
  destruct (scan_blocks PNone blocks) as [| | | | | |d]; try done.
  exists d. split; [done|]. split; [by destruct d|].
  cbn [is_movie] in H. destruct (get d "@type") as [| | | | |t|]; try by apply Hmf.
  apply existsb_exists in H as (x & Hx & Hm). exists x.
  split; [by apply list_elem_of_In|by apply Hmf].
Qed.

(** X5. The first film object of the page wins: the blocks before it
    that are blank, that are not JSON, or that hold no object of type
    [Movie] or [Film] are passed over, and the blocks after it are not
    read. *)
Theorem first_movie_object_wins (skipped : list pystr) (raw : pystr)
    (later : list pystr) (data obj : pyval) :
  Forall (λ b, strip b = [] ∨ (∃ e, json_loads (strip b) = Raise e)
               ∨ (∃ data, json_loads (strip b) = Ok data
                          ∧ find is_movie (iter_jsonld_objects data) = None))
         skipped →
  strip raw ≠ [] →
  json_loads (strip raw) = Ok data →
  find is_movie (iter_jsonld_objects data) = Some obj →
  scan_blocks PNone (skipped ++ raw :: later) = obj.
Proof.
  intros Hs Hraw Hdata Hobj. induction Hs as [|b skipped Hb _ IH].
  - cbn [app Spider.scan_blocks]. destruct (strip raw) as [|c t]; [done|].
    rewrite Hdata, Hobj. by rewrite (is_movie_truthy _ (find_is_movie _ _ Hobj)).
  - cbn [app]. by rewrite scan_blocks_skip.
Qed.

End MovieBlock.

(** ** The fields of an item *)

Section Fields.

Variable json_loads : pystr → res pyval.
Variable float_of_str : pystr → res float.
Variable py_repr : pyval → pystr.

Local Abbreviation names_of := (names_of py_repr).
Local Abbreviation fill_from_movie := (fill_from_movie float_of_str py_repr).
Local Abbreviation from_movie := (from_movie float_of_str py_repr).
Local Abbreviation parse_film := (parse_film json_loads float_of_str py_repr).
Local Abbreviation scan_blocks := (scan_blocks json_loads).






Lemma item_get_other (key key' : String.string) (v : pyval) (item : gmap pystr pyval) :
  str_eqb (py key) (py key') = false →
  item_get (item_set key v item) key' = item_get item key'.
Proof. intros H. unfold item_get. by rewrite item_set_other. Qed.

Lemma item_get_same (key : String.string) (v : pyval) (item : gmap pystr pyval) :
  item_get (item_set key v item) key = v.
Proof. unfold item_get. by rewrite item_set_lookup. Qed.

Lemma item_get_except (keys : list pystr) (key : String.string)
    (item item' : gmap pystr pyval) :
  same_except keys item item' → existsb (str_eqb (py key)) keys = false →
  item_get item' key = item_get item key.
Proof. intros H Hk. unfold item_get. by rewrite (H _ Hk). Qed.

(** One turn of the loop of lines 344-351, on the fields. *)
Lemma fallback_from_get (txt : option pystr) (item : gmap pystr pyval) :
  ∃ item',
    fallback_from (str_or_none txt) item = Ok item' ∧
    item_get item' "title"
    = (if truthy (item_get item "title") then item_get item "title"
       else from_option PStr (item_get item "title") (cleaned_title txt)) ∧
    item_get item' "year"
    = (if is_none (item_get item "year") then int_or_none (guessed_year txt)
       else item_get item "year") ∧
    ∀ k, existsb (str_eqb k) [py "title"; py "year"] = false → item' !! k = item !! k.
Proof.
  assert (Hsame : ∀ v, (if truthy v then v else v) = v) by (by intros; case_match).
  assert (Hnone : ∀ v, (if is_none v then PNone else v) = v) by (by intros []).
  assert (Hset : ∀ (key : String.string) v (i : gmap pystr pyval) k,
            existsb (str_eqb k) [py "title"; py "year"] = false →
            existsb (str_eqb (py key)) [py "title"; py "year"] = true →
            item_set key v i !! k = i !! k).
  { intros key v i k Hk Hkey. apply item_set_other.
    destruct (str_eqb (py key) k) eqn:E; [|done].
    apply bool_decide_eq_true in E as <-. congruence. }
  unfold fallback_from.
  destruct txt as [[|c t]|]; cbn [str_or_none truthy negb cleaned_title guessed_year
                                  from_option int_or_none];
    try (exists item; by rewrite Hsame, Hnone).
  rewrite clean_title_str by done. cbn [mbind res_bind].
  destruct (spec_clean_title (c :: t)) as [s y]. cbn [fst snd].
  set (item1 := if negb (truthy (item_get item "title")) && truthy (PStr s)
                then item_set "title" (PStr s) item else item).
  assert (A1 : item_get item1 "year" = item_get item "year").
  { subst item1. case_match; [|done]. by apply item_get_other. }
  assert (A2 : item_get item1 "title"
               = (if truthy (item_get item "title") then item_get item "title"
                  else from_option PStr (item_get item "title")
                         match s with [] => None | _ => Some s end)).
  { subst item1. destruct (truthy (item_get item "title")); [done|].
    destruct s; [done|]. apply item_get_same. }
  assert (A3 : ∀ k, existsb (str_eqb k) [py "title"; py "year"] = false →
                    item1 !! k = item !! k).
  { intros k Hk. subst item1. case_match; [|done]. by apply Hset. }
  clearbody item1. eexists. split; [done|]. rewrite A1.
  destruct (is_none (item_get item "year")) eqn:Ey; cbn [andb].
  - destruct y as [y|]; cbn [int_or_none is_none negb].
    + rewrite item_get_same, item_get_other, A2 by done.
      split_and!; [by destruct s|done|].
      intros k Hk. rewrite Hset by done. by apply A3.
    + rewrite A1, A2. split_and!; [by destruct s| |done].
      by destruct (item_get item "year").
  - rewrite A1, A2. split_and!; [by destruct s|done..].
Qed.

Lemma cleaned_title_truthy (txt : option pystr) (s : pystr) :
  cleaned_title txt = Some s → truthy (PStr s) = true.
Proof.
  destruct txt as [[|c t]|]; cbn [cleaned_title]; try done.
  destruct (spec_clean_title (c :: t)).1; [done|]. by intros [= <-].
Qed.

(** Lines 340-351 on the fields they set. *)
Lemma fallback_title_year_get (response : film_response) (item : gmap pystr pyval) :
  ∃ item',
    fallback_title_year response item = Ok item' ∧
    item_get item' "title"
    = (if truthy (item_get item "title") then item_get item "title"
       else from_option PStr (item_get item "title")
              (cleaned_title (og_title response) ∪ cleaned_title (title_text response))) ∧
    item_get item' "year"
    = (if is_none (item_get item "year")
       then int_or_none (guessed_year (og_title response)
                         ∪ guessed_year (title_text response))
       else item_get item "year") ∧
    ∀ k, existsb (str_eqb k) [py "title"; py "year"] = false → item' !! k = item !! k.
Proof.
  unfold fallback_title_year.
  destruct (fallback_from_get (og_title response) item) as (j & Ej & T1 & Y1 & F1).
  destruct (fallback_from_get (title_text response) j) as (j' & Ej' & T2 & Y2 & F2).
  destruct (negb (truthy (item_get item "title")) || is_none (item_get item "year")) eqn:C.
  - rewrite Ej. cbn [mbind res_bind]. rewrite Ej'. exists j'. split; [done|].
    rewrite T2, Y2, T1, Y1. split_and!.
    + destruct (truthy (item_get item "title")) eqn:Et; [by rewrite Et|].
      destruct (cleaned_title (og_title response)) as [s|] eqn:Eo; cbn [from_option].
      * rewrite (cleaned_title_truthy _ _ Eo).
        by destruct (cleaned_title (title_text response)).
      * rewrite Et. by destruct (cleaned_title (title_text response)).
    + destruct (is_none (item_get item "year")) eqn:Ey; [|by rewrite Ey].
      destruct (guessed_year (og_title response));
        by destruct (guessed_year (title_text response)).
    + intros k Hk. by rewrite F2, F1.
  - apply orb_false_iff in C as [Ct Cy]. apply negb_false_iff in Ct.
    exists item. by rewrite Ct, Cy.
Qed.

Lemma fallback_poster_get (response : film_response) (item : gmap pystr pyval) :
  item_get (fallback_poster response item) "poster_url"
  = (if truthy (item_get item "poster_url") then item_get item "poster_url"
     else str_or_none (og_image response)).
Proof.
  unfold fallback_poster. destruct (truthy (item_get item "poster_url")); [done|].
  apply item_get_same.
Qed.




(** X8. Without a JSON-LD film object the title and the year come from
    the texts of the page, each on its own: from [og:title] when it
    gives one, else from [<title>]; the poster is [og:image]. A title, a
    year or a poster that the item of the request already has is kept. *)
Theorem metadata_fallback (response : film_response) :
  scan_blocks PNone (ld_json_list response) = PNone →
  let meta := meta_item response in
  ∃ item,
    parse_film response = Ok item ∧
    item_get item "title"
    = (if truthy (item_get meta "title") then item_get meta "title"
       else from_option PStr (item_get meta "title")
              (cleaned_title (og_title response) ∪ cleaned_title (title_text response))) ∧
    item_get item "year"
    = (if is_none (item_get meta "year")
       then int_or_none (guessed_year (og_title response)
                         ∪ guessed_year (title_text response))
       else item_get meta "year") ∧
    item_get item "poster_url"
    = (if truthy (item_get meta "poster_url") then item_get meta "poster_url"
       else str_or_none (og_image response)).
Proof.
  intros Hm meta. unfold Spider.parse_film. rewrite Hm.
  set (item0 := item_set "url" (PStr (film_url response)) (meta_item response)).
  unfold Spider.from_movie. cbn [truthy mbind res_bind].
  destruct (fallback_title_year_get response item0) as (i1 & -> & Tt & Ty & F1).
  cbn [mbind res_bind]. eexists. split; [done|].
  pose proof (fallback_poster_ok response i1) as F2.
  rewrite !(item_get_except _ _ _ _ F2) by done.
  rewrite fallback_poster_get, Tt, Ty.
  rewrite !(item_get_except [py "title"; py "year"] "poster_url"%string item0 i1 F1) by done.
  subst item0. by rewrite !item_get_other by done.
Qed.


End Fields.

(** ** The crawl controller: what the counters count *)

Section Budget.

Context {RNG : Type}.
Variable py_shuffle : RNG → list pystr → list pystr * RNG.
Variable cfg : config.

Local Abbreviation state := (@state RNG).
Local Abbreviation parse_list_page := (parse_list_page py_shuffle cfg).
Local Abbreviation shuffle_if := (shuffle_if py_shuffle cfg).

(** X10. The sample of lines 188-190 is a prefix of the list of film
    links, never empty when the list is not, and the list itself when
    the rate is not strictly between 0 and 1. *)
Theorem sample_is_a_nonempty_prefix (film_urls sampled : list pystr) :
  sample cfg film_urls = Ok sampled →
  sampled `prefix_of` film_urls ∧
  (film_urls ≠ [] → sampled ≠ []) ∧
  (((0 <? sample_rate cfg) && (sample_rate cfg <? 1))%float = false →
   sampled = film_urls).
Proof.
  unfold sample. destruct ((0 <? sample_rate cfg) && (sample_rate cfg <? 1))%float.
  - unfold sample_size.
    destruct (float_of_int _) as [len|e]; [|done]. cbn [mbind res_bind].
    destruct (int_of_float _) as [k|e]; [|done]. cbn [mbind res_bind].
    intros [= <-]. split_and!; [apply prefix_take| |done].
    destruct film_urls as [|u l]; [done|]. intros _.
    destruct (Z.to_nat (Z.max 1 k)) eqn:E; [lia|done].
  - by intros [= <-].
Qed.

(** The scheduling loop counts what it yields. *)
Lemma schedule_films_count (urls : list pystr) (self : state) :
  let '(self', reqs) := schedule_films cfg self urls in
  items_scheduled self' = (items_scheduled self + Z.of_nat (length (film_requests reqs)))%Z ∧
  seen_film_urls self' = list_to_set (film_requests reqs) ∪ seen_film_urls self.
Proof.
  revert self. induction urls as [|url urls IH]; intros self; simpl.
  - split; [lia|set_solver].
  - destruct (max_items cfg <=? items_scheduled self)%Z; [simpl; split; [lia|set_solver]|].
    case_decide; [apply IH|].
    specialize (IH (State ({[url]} ∪ seen_film_urls self) (seen_list_pages self)
                          (pages_crawled self) (items_scheduled self + 1) (rng self))).
    destruct (schedule_films cfg _ urls) as [self'' reqs]. simpl in *.
    destruct IH as [-> ->]. split; [lia|set_solver].
Qed.

Lemma parse_list_page_count (self : state) (response : list_response) :
  let o := parse_list_page self response in
  items_scheduled (after o)
  = (items_scheduled self + Z.of_nat (length (film_requests (yielded o))))%Z ∧
  seen_film_urls (after o)
  = list_to_set (film_requests (yielded o)) ∪ seen_film_urls self.
Proof.
  unfold Spider.parse_list_page.
  case_decide; [simpl; split; [lia|set_solver]|]. simpl.
  case_match; [simpl; split; [lia|set_solver]|].
  match goal with |- context [shuffle_if ?s ?l] =>
    pose proof (shuffle_if_state py_shuffle cfg s l) as Hs;
    destruct (shuffle_if s l) as [fu s1] end.
  simpl in Hs. destruct Hs as (Hs1 & _ & _ & Hi1).
  destruct (sample cfg fu) as [fu'|e]; simpl; [|split; [lia|set_solver]].
  pose proof (schedule_films_count fu' s1) as Hf.
  destruct (schedule_films cfg s1 fu') as [s2 films]. destruct Hf as [Hi2 Hs2].
  case_match; simpl; [split; [lia|set_solver]|].
  match goal with |- context [shuffle_if ?s ?l] =>
    pose proof (shuffle_if_state py_shuffle cfg s l) as Hs';
    destruct (shuffle_if s l) as [nl s3] end.
  simpl in Hs'. destruct Hs' as (Hs3 & _ & _ & Hi3). simpl.
  rewrite film_requests_app, follow_next_no_film, app_nil_r.
  split; [lia|set_solver].
Qed.

(** A listing page is counted when its URL is added to the set. *)
Lemma parse_list_page_pages (self : state) (response : list_response) :
  let self' := after (parse_list_page self response) in
  (pages_crawled self' - Z.of_nat (size (seen_list_pages self'))
   = pages_crawled self - Z.of_nat (size (seen_list_pages self)))%Z.
Proof.
  unfold Spider.parse_list_page.
  case_decide as Hseen; [done|]. simpl.
  assert (Hsize : size ({[list_url response]} ∪ seen_list_pages self)
                  = S (size (seen_list_pages self))).
  { rewrite size_union by set_solver. by rewrite size_singleton. }
  case_match; [simpl; lia|].
  match goal with |- context [shuffle_if ?s ?l] =>
    pose proof (shuffle_if_state py_shuffle cfg s l) as Hs;
    destruct (shuffle_if s l) as [fu s1] end.
  simpl in Hs. destruct Hs as (_ & Hl1 & Hp1 & _).
  destruct (sample cfg fu) as [fu'|e]; simpl; [|rewrite Hl1, Hp1; lia].
  pose proof (schedule_films_state cfg fu' s1) as Hf.
  destruct (schedule_films cfg s1 fu') as [s2 films]. simpl in Hf.
  destruct Hf as (Hl2 & Hp2 & _).
  case_match; simpl; [rewrite Hl2, Hp2, Hl1, Hp1; lia|].
  match goal with |- context [shuffle_if ?s ?l] =>
    pose proof (shuffle_if_state py_shuffle cfg s l) as Hs';
    destruct (shuffle_if s l) as [nl s3] end.
  simpl in Hs'. destruct Hs' as (_ & Hl3 & Hp3 & _). simpl.
  rewrite Hl3, Hp3, Hl2, Hp2, Hl1, Hp1. lia.
Qed.

(** Past the page budget a listing page yields nothing. *)
Lemma parse_list_page_exhausted (self : state) (response : list_response) :
  (max_pages cfg ≤ pages_crawled self)%Z →
  let o := parse_list_page self response in
  yielded o = [] ∧ items_scheduled (after o) = items_scheduled self ∧
  seen_film_urls (after o) = seen_film_urls self ∧
  (max_pages cfg ≤ pages_crawled (after o))%Z.
Proof.
  intros Hmax. unfold Spider.parse_list_page.
  case_decide; [done|]. simpl.
  destruct (max_pages cfg <? pages_crawled self + 1)%Z eqn:E; [simpl; split_and!; try done; lia|].
  apply Z.ltb_ge in E. lia.
Qed.

End Budget.

Section BudgetRuns.

Context {RNG : Type}.
Variable py_shuffle : RNG → list pystr → list pystr * RNG.
Variable json_loads : pystr → res pyval.
Variable float_of_str : pystr → res float.
Variable py_repr : pyval → pystr.
Variable cfg : config.

Local Abbreviation world := (@world RNG).
Local Abbreviation step := (step py_shuffle json_loads float_of_str py_repr cfg).
Local Abbreviation run := (run py_shuffle json_loads float_of_str py_repr cfg).

Lemma run_app (g : RNG) (evs evs' : list event) :
  run g (evs ++ evs') = foldl step (run g evs) evs'.
Proof. unfold Spider.run. by rewrite foldl_app. Qed.

(** X11. [items_scheduled] is the number of film requests the spider
    has yielded since the start of the run, and [seen_film_urls] is the
    set of their URLs; with [max_items >= 0], no run yields more than
    [max_items] film requests. *)
Theorem items_scheduled_counts_film_requests (g : RNG) (evs : list event) :
  let w := run g evs in
  items_scheduled (spider w) = Z.of_nat (length (film_requests (dispatched w))) ∧
  seen_film_urls (spider w) = list_to_set (film_requests (dispatched w)) ∧
  ((0 ≤ max_items cfg)%Z →
   (Z.of_nat (length (film_requests (dispatched w))) ≤ max_items cfg)%Z).
Proof.
  cbv zeta.
  assert (H : items_scheduled (spider (run g evs))
              = Z.of_nat (length (film_requests (dispatched (run g evs)))) ∧
              seen_film_urls (spider (run g evs))
              = list_to_set (film_requests (dispatched (run g evs)))).
  { induction evs as [|ev evs [IH1 IH2]] using rev_ind.
    - unfold Spider.run. simpl.
      rewrite (proj1 (init_world_counters py_shuffle cfg g)).
      rewrite (proj2 (init_world_seen py_shuffle cfg g)).
      by rewrite (proj1 (proj2 (init_world_pending py_shuffle cfg g))).
    - rewrite run_snoc. set (w := run g evs) in *.
      destruct ev as [u response|u response]; simpl; case_decide; simpl; try done.
      pose proof (parse_list_page_count py_shuffle cfg (spider w) response) as [-> ->].
      rewrite film_requests_app, length_app, IH1, IH2, Nat2Z.inj_add.
      split; [lia|set_solver]. }
  destruct H as [H1 H2]. split_and!; [done..|].
  intros Hmax. rewrite <- H1.
  by apply (run_items_bounded py_shuffle json_loads float_of_str py_repr).
Qed.

(** X12. [pages_crawled] is the number of URLs in [seen_list_pages]: in
    every run each listing URL is counted once, however often a page
    with that URL comes back. *)
Theorem pages_crawled_counts_seen_pages (g : RNG) (evs : list event) :
  pages_crawled (spider (run g evs))
  = Z.of_nat (size (seen_list_pages (spider (run g evs)))).
Proof.
  induction evs as [|ev evs IH] using rev_ind.
  - unfold Spider.run. simpl.
    rewrite (proj2 (init_world_counters py_shuffle cfg g)).
    by rewrite (proj1 (init_world_seen py_shuffle cfg g)).
  - rewrite run_snoc. set (w := run g evs) in *.
    destruct ev as [u response|u response]; simpl; case_decide; simpl; try done.
    pose proof (parse_list_page_pages py_shuffle cfg (spider w) response) as Hp.
    simpl in Hp. lia.
Qed.

Lemma step_exhausted (w : world) (ev : event) :
  (max_pages cfg ≤ pages_crawled (spider w))%Z →
  dispatched (step w ev) = dispatched w ∧
  items_scheduled (spider (step w ev)) = items_scheduled (spider w) ∧
  seen_film_urls (spider (step w ev)) = seen_film_urls (spider w) ∧
  (max_pages cfg ≤ pages_crawled (spider (step w ev)))%Z.
Proof.
  intros Hmax. destruct ev as [u response|u response]; simpl; case_decide; simpl;
    try done.
  destruct (parse_list_page_exhausted py_shuffle cfg (spider w) response Hmax)
    as (-> & -> & -> & ?).
  by rewrite app_nil_r.
Qed.

(** X13. Once [pages_crawled] has reached [max_pages], the spider yields
    no request any more, for a film or for a listing page, whatever
    responses still come in: the requests yielded so far are all the
    requests of the run. *)
Theorem no_request_after_page_budget (g : RNG) (evs later : list event) :
  (max_pages cfg ≤ pages_crawled (spider (run g evs)))%Z →
  dispatched (run g (evs ++ later)) = dispatched (run g evs) ∧
  items_scheduled (spider (run g (evs ++ later))) = items_scheduled (spider (run g evs)) ∧
  seen_film_urls (spider (run g (evs ++ later))) = seen_film_urls (spider (run g evs)).
Proof.
  rewrite run_app. generalize (run g evs) as w. clear evs.
  induction later as [|ev later IH]; intros w Hmax; [done|].
  cbn [foldl]. destruct (step_exhausted w ev Hmax) as (<- & <- & <- & Hmax').
  by apply IH.
Qed.



End BudgetRuns.

(** ** The settings *)

Section Split.

Local Open Scope N_scope.

Lemma split_on_from_app (sep : char) (u s cur : pystr) :
  sep ∉ u → split_on_from sep (u ++ s) cur = split_on_from sep s (cur ++ u).
Proof.
  revert cur. induction u as [|c u IH]; intros cur Hu; [by rewrite app_nil_r|].
  cbn [app split_on_from]. destruct (N.eqb_spec c sep) as [->|Hc].
  - exfalso. apply Hu. by left.
  - rewrite IH by (intros ?; apply Hu; by right). by rewrite <- app_assoc.
Qed.

Lemma split_on_from_join (sep : char) (u : pystr) (us : list pystr) (cur : pystr) :
  Forall (λ u, sep ∉ u) (u :: us) →
  split_on_from sep (join [sep] (u :: us)) cur = (cur ++ u) :: us.
Proof.
  revert u cur. induction us as [|u' us IH]; intros u cur Hus.
  - cbn [join]. apply Forall_cons in Hus as [Hu _].
    rewrite <- (app_nil_r u) at 1. by rewrite split_on_from_app.
  - apply Forall_cons in Hus as [Hu Hus].
    change (join [sep] (u :: u' :: us)) with (u ++ [sep] ++ join [sep] (u' :: us)).
    rewrite split_on_from_app by done. cbn [app split_on_from].
    rewrite N.eqb_refl. by rewrite IH.
Qed.

(** The first piece is what comes before the first separator. *)
Lemma split_on_from_head (sep : char) (s cur : pystr) :
  ∃ p rest, s = p ++ rest ∧ sep ∉ p ∧ (rest = [] ∨ ∃ r, rest = sep :: r) ∧
            head (split_on_from sep s cur) = Some (cur ++ p).
Proof.
  revert cur. induction s as [|c s IH]; intros cur.
  - exists [], []. split_and!; [done|by intros ?%elem_of_nil|by left|by rewrite app_nil_r].
  - cbn [split_on_from]. destruct (N.eqb_spec c sep) as [->|Hc].
    + exists [], (sep :: s).
      split_and!; [done|by intros ?%elem_of_nil|right; by eexists|by rewrite app_nil_r].
    + destruct (IH (cur ++ [c])) as (p & rest & -> & Hp & Hrest & ->).
      exists (c :: p), rest. rewrite <- app_assoc.
      split_and!; [done| |done..]. intros [?|?]%elem_of_cons; done.
Qed.

Lemma first_piece_spec (sep : char) (s : pystr) :
  ∃ rest, s = first_piece sep s ++ rest ∧ sep ∉ first_piece sep s ∧
          (rest = [] ∨ ∃ r, rest = sep :: r).
Proof.
  unfold first_piece, split_on.
  destruct (split_on_from_head sep s []) as (p & rest & Hs & Hp & Hrest & ->).
  by exists rest.
Qed.

Lemma first_piece_app (sep : char) (p q : pystr) :
  sep ∉ p → first_piece sep (p ++ sep :: q) = p.
Proof.
  intros Hp. unfold first_piece, split_on. rewrite split_on_from_app by done.
  cbn [split_on_from]. by rewrite N.eqb_refl.
Qed.

Lemma startswith_prefix (s p : pystr) : startswith s p = true ↔ ∃ t, s = p ++ t.
Proof.
  revert s. induction p as [|a p IH]; intros s.
  - split; [intros _; by exists s|by destruct s].
  - destruct s as [|c s]; cbn [startswith]; [split; [done|by intros [t ?]]|].
    rewrite andb_true_iff, N.eqb_eq, IH. split.
    + intros [-> [t ->]]. by exists t.
    + intros [t [= -> ->]]. split; [done|by exists t].
Qed.

End Split.

Section Init.

Local Open Scope N_scope.

Import Settings.

Context {RNG : Type}.
Variable py_seed : pyval → RNG.
Variable float_of_str : pystr → res float.

Local Abbreviation __init__ := (__init__ py_seed float_of_str).

Lemma trimmed_join (sep : pystr) (us : list pystr) :
  Forall (λ u, u ≠ [] ∧ strip u = u) us → trimmed (join sep us).
Proof.
  assert (Hlast : ∀ (a b : pystr), b ≠ [] →
            head_in false Space (rev (a ++ b)) = head_in false Space (rev b)).
  { intros a b Hb. rewrite rev_app_distr. apply head_in_app.
    destruct b using rev_ind; [done|]. rewrite rev_app_distr. done. }
  induction 1 as [|u us [Hne Hu] Hus IH]; [done|].
  assert (Htu : trimmed u) by (rewrite <- Hu; apply strip_is_trimmed).
  destruct us as [|u' us]; [done|].
  change (join sep (u :: u' :: us)) with (u ++ sep ++ join sep (u' :: us)).
  assert (Hj : join sep (u' :: us) ≠ []).
  { apply Forall_cons in Hus as [[Hne' _] _]. destruct us; cbn [join]; [done|].
    by destruct u'. }
  destruct Htu as [H1 H2]. destruct IH as [H3 H4]. split.
  - by rewrite head_in_app.
  - by rewrite app_assoc, Hlast.
Qed.

Lemma split_seed_urls_clean (seed_env : pystr) :
  Forall (λ u, u ≠ [] ∧ strip u = u) (split_seed_urls seed_env).
Proof.
  unfold split_seed_urls. apply Forall_forall. intros u.
  rewrite list_elem_of_fmap. intros (v & -> & Hv).
  apply list_elem_of_filter in Hv as [Hv _]. split; [done|apply strip_idem].
Qed.

Lemma split_seed_urls_join (urls : list pystr) :
  Forall (λ u, u ≠ [] ∧ strip u = u ∧ 0x2C ∉ u) urls →
  split_seed_urls (join (py ",") urls) = urls.
Proof.
  intros H. unfold split_seed_urls, split_on.
  destruct urls as [|u us]; [reflexivity|].
  change (py ",") with [0x2C]. rewrite split_on_from_join.
  2: { eapply Forall_impl; [exact H|]. by intros ? (_ & _ & ?). }
  cbn [app]. induction H as [|v vs (Hne & Hv & _) _ IH]; [done|].
  rewrite filter_cons. rewrite decide_True by (by rewrite Hv).
  cbn [map]. by rewrite Hv, IH.
Qed.

(** X14. The seed URLs that [__init__] reads from [SEED_URLS] are never
    empty and have no whitespace at their ends; an unset or blank
    variable gives the three default seeds; and the variable set to
    URLs joined by commas gives those URLs back, in order. *)
Theorem seed_urls_of_environment (env : gmap pystr pystr) (g : RNG)
    (cfg : config) (self : state) :
  __init__ env g = Ok (cfg, self) →
  Forall (λ u, u ≠ [] ∧ strip u = u) (seed_urls cfg) ∧
  (strip (getenv env "SEED_URLS" "") = [] → seed_urls cfg = default_seed_urls) ∧
  (∀ urls, urls ≠ [] →
           Forall (λ u, u ≠ [] ∧ strip u = u ∧ 0x2C ∉ u) urls →
           env !! py "SEED_URLS" = Some (join (py ",") urls) →
           seed_urls cfg = urls).
Proof.
  unfold Settings.__init__.
  destruct (int_of_str (getenv env "MAX_ITEMS" "250")) as [mi|e]; [|done].
  destruct (int_of_str (getenv env "MAX_PAGES" "12")) as [mp|e]; [|done].
  cbn [mbind res_bind].
  destruct (float_of_str (getenv env "SAMPLE_RATE" "1.0")) as [sr|e]; [|done].
  cbn [mbind res_bind]. intros [= <- _]. cbn [seed_urls]. split_and!.
  - destruct (strip (getenv env "SEED_URLS" "")) as [|c t].
    + apply Forall_forall. intros u Hu. split; [|by apply strip_no_space; set_unfold;
        destruct Hu as [->|[->|[->|[]]]]; vm_compute].
      set_unfold. by destruct Hu as [->|[->|[->|[]]]].
    + apply split_seed_urls_clean.
  - by intros ->.
  - intros urls Hne Hurls Henv. unfold getenv. rewrite Henv. cbn [default]. unfold id.
    assert (Ht : trimmed (join (py ",") urls)).
    { apply trimmed_join. eapply Forall_impl; [exact Hurls|]. by intros ? (? & ? & _). }
    rewrite (strip_trimmed _ Ht).
    destruct (join (py ",") urls) eqn:E; [|by rewrite <- E, split_seed_urls_join].
    exfalso. destruct urls as [|u [|u' us]]; [done| |].
    + cbn [join] in E. apply Forall_cons in Hurls as [[? _] _]. done.
    + change (join (py ",") (u :: u' :: us))
        with (u ++ py "," ++ join (py ",") (u' :: us)) in E.
      apply Forall_cons in Hurls as [[? _] _]. by destruct u.
Qed.


End Init.

(** ** The links of a listing page *)

Section Links.

Local Open Scope N_scope.

Import Anchors.

Variable urljoin : pystr → pystr.

Lemma film_paths_no_query (hrefs found quoted : list pystr) (p : pystr) :
  p ∈ film_paths hrefs found quoted → 0x3F ∉ p.
Proof.
  unfold film_paths. rewrite !elem_of_union, !elem_of_list_to_set, !list_elem_of_fmap.
  intros [[(h & -> & _)|(h & -> & _)]|(h & -> & _)];
    match goal with |- _ ∉ first_piece _ ?s =>
      by destruct (first_piece_spec 0x3F s) as (? & _ & ? & _) end.
Qed.

(** X16. The film links of a listing page (lines 170-183): each is
    [urljoin] of a path that starts with [/film/] and has no [?] in it;
    an [href] of an anchor gives its part before the first [?], so that
    anchors that differ by their query string give one link; and with
    an injective [urljoin] the list has no link twice. *)
Theorem film_links_of_a_page (hrefs found quoted : list pystr) :
  let links := film_urls_of urljoin (film_paths hrefs found quoted) in
  (∀ u, u ∈ links → ∃ p t, u = urljoin p ∧ p = py "/film/" ++ t ∧ 0x3F ∉ p) ∧
  (∀ p q, 0x3F ∉ p → is_film_path p = true → p ++ 0x3F :: q ∈ hrefs → urljoin p ∈ links) ∧
  (∀ p, p ≠ [] → 0x3F ∉ p → is_film_path p = true → p ∈ hrefs → urljoin p ∈ links) ∧
  ((∀ a b, urljoin a = urljoin b → a = b) → NoDup links).
Proof.
  cbv zeta. unfold film_urls_of.
  assert (Hin : ∀ h, h ≠ [] → h ∈ hrefs → is_film_path (first_piece 0x3F h) = true →
                     urljoin (first_piece 0x3F h)
                     ∈ map urljoin (List.filter is_film_path
                                      (elements (film_paths hrefs found quoted)))).
  { intros h Hne Hh Hf. apply list_elem_of_fmap. eexists. split; [done|].
    apply list_elem_of_In, filter_In. split; [|done].
    apply list_elem_of_In, elem_of_elements. unfold film_paths.
    apply elem_of_union_l, elem_of_union_l, elem_of_list_to_set, list_elem_of_fmap.
    exists h. split; [done|]. by apply list_elem_of_filter. }
  split_and!.
  - intros u (p & -> & Hp)%list_elem_of_fmap.
    apply list_elem_of_In, filter_In in Hp as [Hp Hf].
    apply list_elem_of_In, elem_of_elements in Hp.
    apply startswith_prefix in Hf as [t ->].
    exists (py "/film/" ++ t), t. split_and!; [done..|]. by eapply film_paths_no_query.
  - intros p q Hp Hf Hh. rewrite <- (first_piece_app 0x3F p q Hp).
    apply Hin; [by destruct p|done|by rewrite first_piece_app].
  - intros p Hne Hp Hf Hh.
    assert (E : first_piece 0x3F p = p).
    { destruct (first_piece_spec 0x3F p) as (rest & E & _ & [->|[r ->]]).
      - by rewrite app_nil_r in E.
      - exfalso. apply Hp. rewrite E. apply elem_of_app. right. by left. }
    rewrite <- E. apply Hin; [done..|by rewrite E].
  - intros Hinj. apply NoDup_fmap_2; [exact Hinj|].
    apply NoDup_ListNoDup, List.NoDup_filter, NoDup_ListNoDup, NoDup_elements.
Qed.

Lemma numbered_re_here (b : bool) (s : pystr) :
  is_Some (match_here false numbered_re b s) ↔ numbered_here s = true.
Proof.
  assert (N : ∀ A, ¬ is_Some (@None A)) by (by intros A [? ?]).
  unfold match_here, numbered_re, numbered_here.
  cbn [exec rest groups at_start]. unfold one_k at 1. cbn [rest].
  destruct s as [|c s]; [split; [by intros ?%N|done]|].
  cbn [class_matches]. destruct (c =? 0x2F); cbn [andb]; [|split; [by intros ?%N|done]].
  unfold one_k at 1. cbn [consume rest groups at_start].
  destruct s as [|c1 s]; [cbn [take_class]; split; [by intros ?%N|done]|].
  cbn [take_class drop_class class_matches].
  destruct (isdecimal c1) eqn:E1; [|split; [by intros ?%N|done]].
  cbn [consume rest groups at_start].
  rewrite star_k_greedy.
  2: { intros c' s' b' Hc. unfold one_k. cbn [rest class_matches].
       rewrite (decimal_not c' 0x3F) by done. by rewrite at_end_digit. }
  unfold one_k. cbn [consume rest class_matches groups at_start].
  destruct (drop_class false Digit s) as [|c' s'].
  - cbn [at_end]. split; [done|by eexists].
  - destruct (c' =? 0x3F); cbn [orb]; [split; [done|by eexists]|].
    destruct (at_end (c' :: s')); split; try done; first [by eexists|by intros ?%N].
Qed.

Lemma search_from_is_Some (ic : bool) (r : regex) (P : pystr → Prop)
    (start : bool) (s : pystr) :
  (∀ b d, is_Some (match_here ic r b d) ↔ P d) →
  is_Some (search_from ic r start s) ↔ ∃ pre d, s = pre ++ d ∧ P d.
Proof.
  intros HP. revert start. induction s as [|c s IH]; intros start; cbn [search_from].
  - destruct (match_here ic r start []) eqn:E.
    + split; [|by eexists]. intros _. exists [], []. split; [done|].
      apply (HP start). by rewrite E.
    + split; [by intros [? ?]|]. intros (pre & d & Hs & Hd).
      symmetry in Hs. apply app_eq_nil in Hs as [-> ->].
      apply (HP start) in Hd. by rewrite E in Hd.
  - destruct (match_here ic r start (c :: s)) eqn:E.
    + split; [|by eexists]. intros _. exists [], (c :: s). split; [done|].
      apply (HP start). by rewrite E.
    + rewrite IH. split.
      * intros (pre & d & -> & Hd). by exists (c :: pre), d.
      * intros (pre & d & Hs & Hd). destruct pre as [|c' pre].
        -- cbn [app] in Hs. subst d. apply (HP start) in Hd. rewrite E in Hd.
           by destruct Hd.
        -- injection Hs as -> ->. by exists pre, d.
Qed.

Lemma take_class_all (ic : bool) (p : cclass) (s : pystr) :
  forallb (class_matches ic p) (take_class ic p s) = true.
Proof.
  induction s as [|c s IH]; [done|]. cbn [take_class].
  destruct (class_matches ic p c) eqn:E; [|done]. cbn [forallb]. by rewrite E.
Qed.

Lemma class_digits_end (ds : pystr) :
  forallb isdecimal ds = true →
  take_class false Digit ds = ds ∧ drop_class false Digit ds = [].
Proof.
  induction ds as [|c ds IH]; [done|]. cbn [forallb take_class drop_class class_matches].
  intros [-> H]%andb_true_iff. destruct (IH H) as [-> ->]. done.
Qed.

Lemma numbered_here_spec (d : pystr) :
  numbered_here d = true
  ↔ ∃ ds post, d = 0x2F :: ds ++ post ∧ is_digits ds = true ∧
               (post = [] ∨ post = [0x0A] ∨ ∃ q, post = 0x3F :: q).
Proof.
  unfold numbered_here. split.
  - destruct d as [|c t]; [done|]. intros [->%N.eqb_eq H]%andb_true_iff.
    pose proof (take_drop_class false Digit t) as Ht.
    pose proof (take_class_all false Digit t) as Hd.
    destruct (take_class false Digit t) as [|c1 ds]; [done|].
    exists (c1 :: ds), (drop_class false Digit t). split; [by rewrite Ht|].
    split; [exact Hd|].
    destruct (drop_class false Digit t) as [|c' [|c'' t']]; [by left|..].
    + apply orb_true_iff in H as [->%N.eqb_eq| ->%N.eqb_eq]; [right; right; by eexists|].
      right. by left.
    + rewrite orb_false_r in H. apply N.eqb_eq in H as ->. right; right. by eexists.
  - intros (ds & post & -> & [Hne Hds]%is_digits_forall & Hpost).
    rewrite N.eqb_refl. cbn [andb].
    destruct Hpost as [->|[->|[q ->]]].
    + rewrite app_nil_r. destruct (class_digits_end ds Hds) as [-> ->]. by destruct ds.
    + destruct (class_digits ds 0x0A [] Hds) as [-> ->]; [done|]. by destruct ds.
    + destruct (class_digits ds 0x3F q Hds) as [-> ->]; [done|]. by destruct ds.
Qed.

Lemma contains_spec (s p : pystr) : contains s p = true ↔ ∃ a b, s = a ++ p ++ b.
Proof.
  induction s as [|c s IH]; cbn [contains].
  - rewrite orb_false_r, startswith_prefix. split.
    + intros [t E]. by exists [], t.
    + intros (a & b & E). destruct a; [by exists b|done].
  - rewrite orb_true_iff, startswith_prefix, IH. split.
    + intros [[t E]|(a & b & ->)]; [by exists [], t|by exists (c :: a), b].
    + intros (a & b & E). destruct a as [|c' a]; [left; by exists b|].
      injection E as -> ->. right. by exists a, b.
Qed.

(** X17. The anchors taken for pagination links (lines 221-232): an
    anchor with [rel="next"] always; any other anchor when its [href]
    holds [/liste/], [/films/] or [/top], and also either [page=] or a
    slash followed by decimal digits that end the [href], or that a
    [?] or the final newline follows. *)
Theorem next_links_of_a_page (rel_next hrefs : list pystr) :
  (∀ u, u ∈ next_links_of urljoin rel_next hrefs
        ↔ (∃ h, h ∈ rel_next ∧ h ≠ [] ∧ u = urljoin h)
          ∨ (∃ h, h ∈ hrefs ∧ h ≠ [] ∧ is_next_link h = true ∧ u = urljoin h)) ∧
  (∀ href,
     is_next_link href = true
     ↔ ((∃ a b, href = a ++ py "/liste/" ++ b) ∨ (∃ a b, href = a ++ py "/films/" ++ b)
        ∨ (∃ a b, href = a ++ py "/top" ++ b))
       ∧ ((∃ pre ds post, href = pre ++ 0x2F :: ds ++ post ∧ is_digits ds = true ∧
                          (post = [] ∨ post = [0x0A] ∨ ∃ q, post = 0x3F :: q))
          ∨ (∃ a b, href = a ++ py "page=" ++ b))).
Proof.
  split.
  - intros u. unfold next_links_of.
    rewrite elem_of_union, !elem_of_list_to_set, !list_elem_of_fmap.
    assert (Hor : ∀ A B C D : Prop, (A ↔ C) → (B ↔ D) → (A ∨ B ↔ C ∨ D)) by tauto.
    apply Hor.
    + split.
      * intros (h & -> & [? ?]%list_elem_of_filter). by exists h.
      * intros (h & ? & ? & ->). exists h. split; [done|]. by apply list_elem_of_filter.
    + split.
      * intros (h & -> & Hh). apply list_elem_of_In, filter_In in Hh as [Hh Hc].
        apply andb_true_iff in Hc as [Hne%bool_decide_eq_true Hn].
        exists h. split_and!; try done. by apply list_elem_of_In.
      * intros (h & Hh & Hne & Hn & ->). exists h. split; [done|].
        apply list_elem_of_In, filter_In. split; [by apply list_elem_of_In|].
        apply andb_true_iff. split; [by apply bool_decide_eq_true|done].
  - intros href. unfold is_next_link.
    rewrite andb_true_iff, !orb_true_iff, !contains_spec, bool_decide_eq_true.
    unfold re_search.
    rewrite (search_from_is_Some false numbered_re (λ d, numbered_here d = true))
      by apply numbered_re_here.
    assert (Hc : ∀ A1 A2 A3 B C D : Prop,
              (B ↔ D) → (((A1 ∨ A2) ∨ A3) ∧ (B ∨ C) ↔ (A1 ∨ A2 ∨ A3) ∧ (D ∨ C))) by tauto.
    apply Hc. split.
    + intros (pre & d & -> & (ds & post & -> & ?)%numbered_here_spec).
      by exists pre, ds, post.
    + intros (pre & ds & post & -> & ?). exists pre, (0x2F :: ds ++ post).
      split; [done|]. apply numbered_here_spec. by exists ds, post.
Qed.

End Links.

(** ** The loader *)

Section Loading.

Import Loader.

Lemma str_eqb_eq (a b : pystr) : str_eqb a b = true ↔ a = b.
Proof. apply bool_decide_eq_true. Qed.

Lemma str_eqb_neq (a b : pystr) : str_eqb a b = false ↔ a ≠ b.
Proof. apply bool_decide_eq_false. Qed.

Lemma dict_set_get (d : list (pystr * pyval)) (k : pystr) (v : pyval) :
  dict_get (dict_set d k v) k = v ∧ dict_has (dict_set d k v) k = true.
Proof.
  induction d as [|[k' v'] d IH]; cbn [dict_set dict_get dict_has].
  - by rewrite (proj2 (str_eqb_eq k k)).
  - destruct (str_eqb k k') eqn:E; cbn [dict_get dict_has].
    + by rewrite (proj2 (str_eqb_eq k k)).
    + by rewrite E.
Qed.

Lemma dict_set_other (d : list (pystr * pyval)) (k k' : pystr) (v : pyval) :
  k' ≠ k →
  dict_get (dict_set d k v) k' = dict_get d k' ∧
  dict_has (dict_set d k v) k' = dict_has d k'.
Proof.
  intros Hk. apply str_eqb_neq in Hk.
  induction d as [|[k0 v0] d IH]; cbn [dict_set dict_get dict_has].
  - by rewrite Hk.
  - destruct (str_eqb k k0) eqn:E; cbn [dict_get dict_has].
    + apply str_eqb_eq in E as <-. by rewrite Hk.
    + destruct IH as [-> ->]. done.
Qed.

Lemma dict_set_set (d : list (pystr * pyval)) (k : pystr) (v v' : pyval) :
  dict_set (dict_set d k v) k v' = dict_set d k v'.
Proof.
  induction d as [|[k0 v0] d IH]; cbn [dict_set].
  - by rewrite (proj2 (str_eqb_eq k k)).
  - destruct (str_eqb k k0) eqn:E; cbn [dict_set].
    + by rewrite (proj2 (str_eqb_eq k k)).
    + by rewrite E, IH.
Qed.

Lemma dict_set_same (d : list (pystr * pyval)) (k : pystr) (v : pyval) :
  dict_has d k = true → dict_get d k = v → dict_set d k v = d.
Proof.
  induction d as [|[k0 v0] d IH]; cbn [dict_set dict_get dict_has]; [done|].
  destruct (str_eqb k k0) eqn:E.
  - apply str_eqb_eq in E as <-. by intros _ ->.
  - cbn [orb]. intros Hh Hg. by rewrite IH.
Qed.

Lemma dict_set_truthy (d : list (pystr * pyval)) (k : pystr) (v : pyval) :
  truthy (PDict (dict_set d k v)) = true.
Proof. destruct d as [|[k' v'] d]; cbn [dict_set]; [done|]. by case_match. Qed.

Lemma url_is_not_scraped_at : py "url" ≠ py "scraped_at".
Proof. done. Qed.

Lemma normalize_film_valid (now : Z) (d : list (pystr * pyval)) (url : pystr) :
  get d "url" = PStr url → strip url ≠ [] →
  normalize_film now (PDict d)
  = PDict (dict_set (dict_set d (py "url") (PStr (strip url)))
                    (py "scraped_at") (PInt now)).
Proof.
  intros Hu Hs. unfold normalize_film. rewrite Hu. by destruct (strip url).
Qed.

(** X18. [normalize_film] rejects, with [None], what is not a [dict]
    and a [dict] whose [url] is missing, is not a string or is blank,
    and nothing else. In a document it accepts, [url] is the stripped
    URL, [scraped_at] is the time, and every other key is as it was. *)
Theorem normalize_film_spec (now : Z) (doc : pyval) :
  (normalize_film now doc = PNone
   ↔ ¬ ∃ d url, doc = PDict d ∧ get d "url" = PStr url ∧ strip url ≠ []) ∧
  (∀ d url, doc = PDict d → get d "url" = PStr url → strip url ≠ [] →
     ∃ d', normalize_film now doc = PDict d' ∧
           get d' "url" = PStr (strip url) ∧
           get d' "scraped_at" = PInt now ∧
           ∀ k, k ≠ py "url" → k ≠ py "scraped_at" →
                dict_get d' k = dict_get d k ∧ dict_has d' k = dict_has d k).
Proof.
  assert (H2 : ∀ d url, doc = PDict d → get d "url" = PStr url → strip url ≠ [] →
     ∃ d', normalize_film now doc = PDict d' ∧
           get d' "url" = PStr (strip url) ∧
           get d' "scraped_at" = PInt now ∧
           ∀ k, k ≠ py "url" → k ≠ py "scraped_at" →
                dict_get d' k = dict_get d k ∧ dict_has d' k = dict_has d k).
  { intros d url -> Hu Hs. rewrite (normalize_film_valid now d url Hu Hs).
    eexists. split; [done|]. unfold get. split_and!.
    - rewrite (proj1 (dict_set_other _ (py "scraped_at") (py "url") _
                        url_is_not_scraped_at)).
      apply dict_set_get.
    - apply dict_set_get.
    - intros k K1 K2.
      destruct (dict_set_other (dict_set d (py "url") (PStr (strip url)))
                  (py "scraped_at") k (PInt now) K2) as [-> ->].
      by apply dict_set_other. }
  split; [|exact H2]. split.
  - intros Hn (d & url & -> & Hu & Hs).
    destruct (H2 d url eq_refl Hu Hs) as (d' & E & _). congruence.
  - intros Hno. unfold normalize_film.
    destruct doc as [| | | | | |d]; try done.
    destruct (get d "url") as [| | | |url| |] eqn:Eu; try done.
    destruct (strip url) eqn:Es; [done|].
    exfalso. apply Hno. exists d, url. by rewrite Es.
Qed.

(** X19. Normalising a document again changes nothing but the time:
    [normalize_film] applied to a document it returned gives what it
    gives on the original document at the second time. *)
Theorem normalize_film_twice (now later : Z) (doc : pyval) :
  normalize_film later (normalize_film now doc) = normalize_film later doc.
Proof.
  destruct doc as [| | | | | |d]; try done.
  unfold normalize_film at 2. unfold normalize_film at 2.
  destruct (get d "url") as [| | | |url| |] eqn:Eu; try done.
  destruct (strip url) as [|c t] eqn:Es; [done|].
  set (d1 := dict_set d (py "url") (PStr (c :: t))).
  assert (G1 : dict_get d1 (py "url") = PStr (c :: t) ∧ dict_has d1 (py "url") = true)
    by apply dict_set_get.
  assert (G2 : get (dict_set d1 (py "scraped_at") (PInt now)) "url" = PStr (c :: t)).
  { unfold get.
    rewrite (proj1 (dict_set_other d1 (py "scraped_at") (py "url") _
                      url_is_not_scraped_at)).
    apply G1. }
  assert (S : strip (c :: t) ≠ []).
  { rewrite <- Es, strip_idem. by rewrite Es. }
  rewrite (normalize_film_valid later _ _ G2 S).
  rewrite <- Es at 1. rewrite strip_idem, Es.
  rewrite (dict_set_same (dict_set d1 _ _) (py "url") (PStr (c :: t))).
  - by rewrite dict_set_set.
  - rewrite (proj2 (dict_set_other d1 (py "scraped_at") (py "url") _
                      url_is_not_scraped_at)).
    apply G1.
  - exact G2.
Qed.

Lemma keep_or_skip_spec (now : Z) (acc : tally) (film : pyval) :
  (normalize_film now film = PNone ∧
   keep_or_skip now acc film = Ok (Tally (ops acc) (kept acc) (skipped acc + 1))) ∨
  (∃ d u, normalize_film now film = PDict d ∧ get d "url" = PStr u ∧ u ≠ [] ∧
          strip u = u ∧ get d "scraped_at" = PInt now ∧
          keep_or_skip now acc film
          = Ok (Tally (ops acc ++ [UpdateOne (PStr u) (PDict d)]) (kept acc + 1)
                      (skipped acc))).
Proof.
  unfold keep_or_skip.
  destruct (normalize_film now film) as [| | | | | |d'] eqn:E;
    try (unfold normalize_film in E; repeat case_match; done).
  - by left.
  - right. unfold normalize_film in E.
    destruct film as [| | | | | |d]; try done.
    destruct (get d "url") as [| | | |url| |] eqn:Eu; try done.
    destruct (strip url) as [|c t] eqn:Es; [done|]. injection E as <-.
    set (d1 := dict_set d (py "url") (PStr (c :: t))).
    pose proof (dict_set_get d (py "url") (PStr (c :: t))) as [G1 H1]. fold d1 in G1, H1.
    pose proof (dict_set_other d1 (py "scraped_at") (py "url") (PInt now)
                  url_is_not_scraped_at) as [G2 H2].
    exists (dict_set d1 (py "scraped_at") (PInt now)), (c :: t).
    unfold get, dict_getitem. rewrite G2, H2, G1, H1. cbn [mbind res_bind].
    split_and!; try done.
    + rewrite <- Es. apply strip_idem.
    + apply dict_set_get.
    + by rewrite dict_set_truthy.
Qed.

Lemma normalize_film_none (now now' : Z) (film : pyval) :
  is_none (normalize_film now film) = is_none (normalize_film now' film).
Proof. unfold normalize_film. by repeat case_match. Qed.

Lemma collect_from_spec (clock : nat → Z) (films : list pyval) (i : nat) (acc : tally) :
  Forall upsert_by_url (ops acc) →
  ∃ t, collect_from clock i films acc = Ok t ∧
       Forall upsert_by_url (ops t) ∧
       (length (ops t) = length (ops acc) + Z.to_nat (kept t - kept acc))%nat ∧
       (kept acc ≤ kept t)%Z ∧
       (skipped t - skipped acc
        = Z.of_nat (length (List.filter (λ film, is_none (normalize_film 0 film)) films)))%Z ∧
       ((kept t - kept acc) + (skipped t - skipped acc) = Z.of_nat (length films))%Z.
Proof.
  revert i acc. induction films as [|film films IH]; intros i acc Hacc.
  - exists acc. cbn [collect_from length List.filter]. split_and!; try done; lia.
  - cbn [collect_from List.filter]. rewrite <- (normalize_film_none (clock i)).
    destruct (keep_or_skip_spec (clock i) acc film)
      as [[-> ->]|(d & u & -> & Hu & Hne & Hs & Hn & ->)]; cbn [mbind res_bind is_none].
    + destruct (IH (S i) (Tally (ops acc) (kept acc) (skipped acc + 1)) Hacc)
        as (t & -> & Hops & Hlen & Hk & Hsk & Hsum).
      cbn [ops kept skipped] in *. exists t. cbn [length].
      split_and!; try done; lia.
    + destruct (IH (S i) (Tally (ops acc ++ [UpdateOne (PStr u) (PDict d)])
                                (kept acc + 1) (skipped acc)))
        as (t & -> & Hops & Hlen & Hk & Hsk & Hsum).
      { cbn [ops]. apply Forall_app. split; [done|]. constructor; [|done].
        by exists u, d, (clock i). }
      cbn [ops kept skipped] in *. rewrite length_app in Hlen. cbn [length] in *.
      exists t. split_and!; try done; lia.
Qed.

(** X20. The loop of [main] never raises. It skips the films that
    [normalize_film] rejects and keeps the others: [skipped] is the
    number of films rejected, [kept] the number of operations in [ops],
    and [kept + skipped] the number of films read. Each operation
    upserts a normalised document and filters by the URL of that
    document, a string that is not empty and has no whitespace at its
    ends. *)
Theorem loader_counts_every_film (clock : nat → Z) (films : list pyval) :
  ∃ t, collect clock films = Ok t ∧
       (kept t + skipped t = Z.of_nat (length films))%Z ∧
       kept t = Z.of_nat (length (ops t)) ∧
       skipped t
       = Z.of_nat (length (List.filter (λ film, is_none (normalize_film 0 film)) films)) ∧
       Forall upsert_by_url (ops t).
Proof.
  unfold collect.
  destruct (collect_from_spec clock films 0 (Tally [] 0 0))
    as (t & -> & Hops & Hlen & Hk & Hsk & Hsum); [constructor|].
  cbn [ops kept skipped length] in *. exists t. split_and!; try done; lia.
Qed.

End Loading.

(** ** The web application *)

Section Web.

Local Open Scope N_scope.

Import Webapp.

Variable float_of_str : pystr → res float.
Variable py_repr : pyval → pystr.

Local Abbreviation safe_float := (safe_float float_of_str py_repr).

Lemma lstrip_map (f : char → char) (s : pystr) :
  (∀ c, isspace (f c) = isspace c) → lstrip (map f s) = map f (lstrip s).
Proof.
  intros Hf. induction s as [|c s IH]; [done|]. cbn [map lstrip].
  rewrite Hf. by destruct (isspace c).
Qed.

Lemma strip_map (f : char → char) (s : pystr) :
  (∀ c, isspace (f c) = isspace c) → strip (map f s) = map f (strip s).
Proof.
  intros Hf. unfold strip, rstrip.
  by rewrite lstrip_map, <- map_rev, lstrip_map, map_rev.
Qed.

Lemma comma_to_point_space (c : char) :
  isspace (if c =? 0x2C then 0x2E else c) = isspace c.
Proof. by destruct (N.eqb_spec c 0x2C) as [->|]. Qed.

Lemma replace_comma_idem (s : pystr) :
  replace_char 0x2C 0x2E (replace_char 0x2C 0x2E s) = replace_char 0x2C 0x2E s.
Proof.
  unfold replace_char. rewrite map_map. apply map_ext. intros c.
  destruct (N.eqb_spec c 0x2C) as [->|Hc]; [done|]. by apply N.eqb_neq in Hc as ->.
Qed.

Lemma strip_replace_comma (s : pystr) :
  strip (replace_char 0x2C 0x2E s) = replace_char 0x2C 0x2E (strip s).
Proof. unfold replace_char. apply strip_map, comma_to_point_space. Qed.

(** X21. [safe_float] never raises and returns a [float] or [None]:
    [None] for [None] and for a blank string; for a string, what
    [float] gives on the string stripped with its commas turned into
    points, [None] when [float] refuses it. A decimal comma therefore
    reads as a decimal point, and whitespace around the number does
    not count. *)
Theorem safe_float_spec (x : pyval) :
  (safe_float x = PNone ∨ ∃ f, safe_float x = PFloat f) ∧
  safe_float PNone = PNone ∧
  (∀ s, x = PStr s →
        safe_float x = safe_float (PStr (strip s)) ∧
        safe_float x = safe_float (PStr (replace_char 0x2C 0x2E s)) ∧
        (strip s = [] → safe_float x = PNone) ∧
        (strip s ≠ [] →
         safe_float x
         = match float_of_str (replace_char 0x2C 0x2E (strip s)) with
           | Ok f => PFloat f
           | Raise _ => PNone
           end)).
Proof.
  split_and!.
  - unfold Webapp.safe_float. destruct (is_none x); [by left|].
    destruct (replace_char _ _ _); [by left|].
    destruct (float_of_str _); [right; by eexists|by left].
  - done.
  - intros s ->. unfold Webapp.safe_float. cbn [is_none py_str]. split_and!.
    + by rewrite strip_idem.
    + by rewrite strip_replace_comma, replace_comma_idem.
    + by intros ->.
    + intros Hs. destruct (strip s) as [|c t]; [done|].
      by destruct (replace_char 0x2C 0x2E (c :: t)) eqn:E.
Qed.

Lemma eq_str_eq (g : pyval) (s : pystr) : eq_str g s = true ↔ g = PStr s.
Proof.
  destruct g; cbn [eq_str]; try (split; [done|by intros [=]]).
  unfold str_eqb. rewrite bool_decide_eq_true. split; [by intros ->|by intros [= ->]].
Qed.

Lemma filter_other_idem (sel : pystr) (l : list pyval) :
  List.filter (λ g, negb (eq_str g sel)) (List.filter (λ g, negb (eq_str g sel)) l)
  = List.filter (λ g, negb (eq_str g sel)) l.
Proof.
  induction l as [|g l IH]; [done|]. cbn [List.filter].
  destruct (negb (eq_str g sel)) eqn:E; [|done]. cbn [List.filter]. by rewrite E, IH.
Qed.

Lemma move_to_front (sel : pystr) (l : list pyval) :
  NoDup l → PStr sel ∈ l →
  PStr sel :: List.filter (λ g, negb (eq_str g sel)) l ≡ₚ l.
Proof.
  induction 1 as [|g l Hg Hl IH]; [by intros ?%elem_of_nil|].
  cbn [List.filter]. destruct (eq_str g sel) eqn:E; cbn [negb].
  - apply eq_str_eq in E as ->. intros _. f_equiv.
    clear IH Hl. induction l as [|g l IH]; [done|]. cbn [List.filter].
    destruct (eq_str g sel) eqn:E; cbn [negb].
    + apply eq_str_eq in E as ->. exfalso. apply Hg. by left.
    + f_equiv. apply IH. intros ?. apply Hg. by right.
  - intros [Heq|Hin]%elem_of_cons.
    + symmetry in Heq. apply eq_str_eq in Heq. congruence.
    + rewrite Permutation_swap. f_equiv. by apply IH.
Qed.

Lemma has_genre (sel : pystr) (l : list pyval) :
  existsb (λ g, eq_str g sel) l = true ↔ PStr sel ∈ l.
Proof.
  rewrite existsb_exists. split.
  - intros (g & Hg & ->%eq_str_eq). by apply list_elem_of_In.
  - intros Hin. exists (PStr sel). split; [by apply list_elem_of_In|by apply eq_str_eq].
Qed.

Lemma filter_sublist {A} (f : A → bool) (l : list A) : List.filter f l `sublist_of` l.
Proof.
  induction l as [|x l IH]; [constructor|]. cbn [List.filter].
  destruct (f x); by constructor.
Qed.

(** X22. [reorder_genres] moves the genre of the request to the front
    of the list of a film that has it: the list begins with that genre,
    which does not come again, and the other genres follow in their
    order; no genre is added or lost, and a list without doubles is
    only permuted. A list that has not the genre, an empty genre and a
    value that is not a list are returned as they are; and reordering
    twice is reordering once. *)
Theorem reorder_genres_spec (genres_list : pyval) (selected_genre : pystr) :
  reorder_genres (reorder_genres genres_list selected_genre) selected_genre
  = reorder_genres genres_list selected_genre ∧
  (∀ l, genres_list = PList l → selected_genre ≠ [] → PStr selected_genre ∈ l →
        ∃ others,
          reorder_genres genres_list selected_genre = PList (PStr selected_genre :: others) ∧
          PStr selected_genre ∉ others ∧
          others `sublist_of` l ∧
          (∀ g, g ∈ PStr selected_genre :: others ↔ g ∈ l) ∧
          (NoDup l → PStr selected_genre :: others ≡ₚ l)) ∧
  (∀ l, genres_list = PList l → PStr selected_genre ∉ l →
        reorder_genres genres_list selected_genre = genres_list) ∧
  (selected_genre = [] → reorder_genres genres_list selected_genre = genres_list) ∧
  ((∀ l, genres_list ≠ PList l) →
   reorder_genres genres_list selected_genre = genres_list).
Proof.
  split_and!.
  - unfold reorder_genres.
    destruct genres_list as [| | | | |l|]; try done.
    destruct selected_genre as [|c t]; [done|].
    destruct (existsb _ l) eqn:E; [|by rewrite E].
    cbn [existsb List.filter].
    rewrite (proj2 (eq_str_eq (PStr (c :: t)) (c :: t)) eq_refl).
    cbn [orb negb]. by rewrite filter_other_idem.
  - intros l -> Hne Hin. unfold reorder_genres.
    destruct selected_genre as [|c t]; [done|].
    rewrite (proj2 (has_genre (c :: t) l) Hin).
    eexists. split; [done|].
    assert (Hnot : PStr (c :: t) ∉ List.filter (λ g, negb (eq_str g (c :: t))) l).
    { intros [_ H]%list_elem_of_In%filter_In.
      by rewrite (proj2 (eq_str_eq (PStr (c :: t)) (c :: t)) eq_refl) in H. }
    split_and!; [done|apply filter_sublist| |intros ?; by apply move_to_front].
    intros g. rewrite elem_of_cons, list_elem_of_In, filter_In, <- list_elem_of_In. split.
    + intros [->|[? _]]; done.
    + intros Hg. destruct (eq_str g (c :: t)) eqn:E; [left; by apply eq_str_eq|by right].
  - intros l -> Hnot. unfold reorder_genres.
    destruct selected_genre as [|c t]; [done|].
    destruct (existsb _ l) eqn:E; [|done]. by apply has_genre in E.
  - intros ->. unfold reorder_genres. by destruct genres_list.
  - intros Hl. unfold reorder_genres.
    destruct genres_list as [| | | | |l|]; try done. by destruct (Hl l).
Qed.

End Web.

(** ** The further properties on examples *)

(** The year of a date. *)
Lemma extract_year_witness :
  extract_year_from_date (PStr (py "2019-03-01")) = Ok (PInt 2019) ∧
  (0 ≤ 2019 ≤ 9999)%Z.
Proof.
  assert (H : extract_year_from_date (PStr (py "2019-03-01")) = Ok (PInt 2019))
    by reflexivity.
  split; [exact H|].
  exact (proj1 (proj2 (extract_year_from_date_spec (PStr (py "2019-03-01")))) 2019%Z H).
Defined.

(** A [@graph] stands for its objects. *)
Lemma graph_witness :
  dict_has graph_fields (py "@graph") = true ∧
  iter_jsonld_objects (PDict graph_fields)
  = iter_jsonld_objects (get graph_fields "@graph").
Proof.
  assert (H : dict_has graph_fields (py "@graph") = true) by reflexivity.
  split; [exact H|].
  exact (proj1 (iter_jsonld_objects_flattens (PDict graph_fields)) graph_fields eq_refl H).
Defined.

(** The film object of the third block of a page, after a blank block
    and a block that is not JSON. *)
Lemma first_movie_witness :
  scan_blocks alien_json PNone (ld_json_list alien_response) = PDict alien_movie.
Proof.
  apply (first_movie_object_wins alien_json [py "  "; py "not json"] alien_block
           [dune_block] (PDict alien_movie) (PDict alien_movie)).
  - apply List.Forall_cons; [left; reflexivity|].
    apply List.Forall_cons; [|apply List.Forall_nil].
    right. left. exists JSONDecodeError. reflexivity.
  - by vm_compute.
  - reflexivity.
  - reflexivity.
Defined.



(** The title of [brazil_response] is that of [og:title], its year that
    of [<title>]. *)
Lemma metadata_fallback_witness :
  scan_blocks no_json PNone (ld_json_list brazil_response) = PNone ∧
  ∃ item,
    parse_film no_json no_float no_repr brazil_response = Ok item ∧
    item_get item "title" = PStr (py "Brazil") ∧
    item_get item "year" = PInt 1985 ∧
    item_get item "poster_url" = PStr (py "https://media.senscritique.com/brazil.jpg").
Proof.
  assert (H : scan_blocks no_json PNone (ld_json_list brazil_response) = PNone)
    by reflexivity.
  split; [exact H|].
  destruct (metadata_fallback no_json no_float no_repr brazil_response H)
    as (item & E & Ht & Hy & Hp).
  exists item. split_and!; [exact E| | |].
  - rewrite Ht. reflexivity.
  - rewrite Hy. reflexivity.
  - rewrite Hp. reflexivity.
Defined.


(** Half of ten film links. *)
Lemma sample_witness :
  sample half_config ten_films = Ok (take 5 ten_films) ∧
  take 5 ten_films `prefix_of` ten_films ∧ take 5 ten_films ≠ [].
Proof.
  assert (H : sample half_config ten_films = Ok (take 5 ten_films)) by reflexivity.
  split; [exact H|].
  destruct (sample_is_a_nonempty_prefix half_config ten_films (take 5 ten_films) H)
    as (H1 & H2 & _).
  split; [exact H1|]. apply H2. done.
Defined.

(** The film requests of a run with the default settings. *)
Lemma items_scheduled_witness :
  (0 ≤ max_items default_config)%Z ∧
  let w := run counting_shuffle no_json no_float no_repr default_config 0 two_films in
  (Z.of_nat (length (film_requests (dispatched w))) ≤ max_items default_config)%Z.
Proof.
  assert (H : (0 ≤ max_items default_config)%Z) by done.
  split; [exact H|].
  exact (proj2 (proj2 (items_scheduled_counts_film_requests counting_shuffle no_json
                         no_float no_repr default_config 0 two_films)) H).
Defined.

(** With [max_pages = 1] the first listing page is the last that yields
    a request: the second seed yields none. *)
Lemma page_budget_witness :
  (max_pages one_page_config
   ≤ pages_crawled (spider (run counting_shuffle no_json no_float no_repr
                              one_page_config 0%nat first_page)))%Z ∧
  dispatched (run counting_shuffle no_json no_float no_repr one_page_config 0
                (first_page ++ later_pages))
  = dispatched (run counting_shuffle no_json no_float no_repr one_page_config 0 first_page).
Proof.
  assert (H : (max_pages one_page_config
               ≤ pages_crawled (spider (run counting_shuffle no_json no_float no_repr
                                          one_page_config 0%nat first_page)))%Z)
    by (vm_compute; discriminate).
  split; [exact H|].
  exact (proj1 (no_request_after_page_budget counting_shuffle no_json no_float no_repr
                  one_page_config 0 first_page later_pages H)).
Defined.


(** The settings read from [crawl_env]. *)
Lemma seed_urls_witness :
  Settings.__init__ zero_seed one_float crawl_env 0
  = Ok (Config [top_url; best_url] 40 12 false 1%float, init_state 0) ∧
  seed_urls (Config [top_url; best_url] 40 12 false 1%float) = [top_url; best_url].
Proof.
  assert (H : Settings.__init__ zero_seed one_float crawl_env 0
              = Ok (Config [top_url; best_url] 40 12 false 1%float, init_state 0))
    by (vm_compute; reflexivity).
  split; [exact H|].
  apply (proj2 (proj2 (seed_urls_of_environment zero_seed one_float crawl_env 0 _ _ H))
           [top_url; best_url]); [done| |reflexivity].
  repeat constructor; try done; try reflexivity;
    apply (bool_decide_unpack (_ ∉ _)); vm_compute; reflexivity.
Defined.


(** Two anchors for one film give one link. *)
Lemma film_links_witness :
  (∀ a b, site_urljoin a = site_urljoin b → a = b) ∧
  NoDup (Anchors.film_urls_of site_urljoin (Anchors.film_paths page_hrefs [] [])) ∧
  alien_url ∈ Anchors.film_urls_of site_urljoin (Anchors.film_paths page_hrefs [] []).
Proof.
  assert (H : ∀ a b, site_urljoin a = site_urljoin b → a = b).
  { intros a b. unfold site_urljoin. apply app_inv_head. }
  split; [exact H|].
  destruct (film_links_of_a_page site_urljoin page_hrefs [] []) as (_ & H2 & _ & H4).
  split; [exact (H4 H)|].
  apply (H2 (py "/film/alien/1") (py "utm=top")).
  - apply (bool_decide_unpack (_ ∉ _)). vm_compute. reflexivity.
  - reflexivity.
  - apply (bool_decide_unpack (_ ∈ _)). vm_compute. reflexivity.
Defined.

(** A numbered page of a list is a pagination link. *)
Lemma next_link_witness : is_next_link (py "/liste/top/12") = true.
Proof.
  apply (proj2 (next_links_of_a_page site_urljoin [] []) (py "/liste/top/12")).
  split.
  - left. by exists [], (py "top/12").
  - left. exists (py "/liste/top"), (py "12"), []. split_and!; [reflexivity..|by left].
Defined.

(** A document whose URL has spaces around it. *)
Lemma normalize_film_witness :
  get alien_doc "url" = PStr (py " https://www.senscritique.com/film/alien/1 ") ∧
  ∃ d', Loader.normalize_film 1700000000 (PDict alien_doc) = PDict d' ∧
        get d' "url" = PStr alien_url ∧
        get d' "scraped_at" = PInt 1700000000 ∧
        get d' "title" = PStr (py "Alien").
Proof.
  assert (H : get alien_doc "url"
              = PStr (py " https://www.senscritique.com/film/alien/1 ")) by reflexivity.
  split; [exact H|].
  destruct (proj2 (normalize_film_spec 1700000000 (PDict alien_doc)) alien_doc _ eq_refl H)
    as (d' & E & Hu & Hs & Hk); [by vm_compute|].
  exists d'. split_and!; [exact E|exact Hu|exact Hs|].
  unfold get. rewrite (proj1 (Hk (py "title") ltac:(done) ltac:(done))). reflexivity.
Defined.

(** A rating typed with a comma. *)
Lemma safe_float_witness :
  strip (py " 7,8 ") ≠ [] ∧
  Webapp.safe_float dune_float no_repr (PStr (py " 7,8 ")) = PFloat 7.8.
Proof.
  assert (H : strip (py " 7,8 ") ≠ []) by (by vm_compute).
  split; [exact H|].
  destruct (proj2 (proj2 (safe_float_spec dune_float no_repr (PStr (py " 7,8 "))))
              (py " 7,8 ") eq_refl) as (_ & _ & _ & Hf).
  rewrite (Hf H). reflexivity.
Defined.

(** The genre of the request comes first. *)
Lemma reorder_genres_witness :
  PStr (py "Thriller") ∈ alien_genres ∧
  ∃ others,
    Webapp.reorder_genres (PList alien_genres) (py "Thriller")
    = PList (PStr (py "Thriller") :: others) ∧
    PStr (py "Thriller") ∉ others.
Proof.
  assert (H : PStr (py "Thriller") ∈ alien_genres).
  { unfold alien_genres. repeat constructor. }
  split; [exact H|].
  destruct (proj1 (proj2 (reorder_genres_spec (PList alien_genres) (py "Thriller")))
              alien_genres eq_refl ltac:(done) H) as (others & E & Hn & _).
  by exists others.
Defined.
